(** * LinkedIn content generator backend: rate limiter, generation gateway,
      credential store and token validation

    A shallow embedding of [backend/gemini_utils.py] and [backend/auth.py].

    Conventions of the embedding:
    - a reading of the wall clock ([time.time()], [datetime.utcnow()]) is an
      explicit argument, counted in seconds and modelled as an integer;
    - a Python [dict] is a [gmap]; a Python [list] is a [list];
    - a Python [str] is a [string], each character standing for one code
      point below 256;
    - functions that mutate process-wide state take the state and return
      the new state next to their result;
    - a raised exception is a value of a sum type. *)

From Stdlib Require Import ZArith Lia Bool Ascii String.
From stdpp Require Import gmap strings list fin_maps sorting.

Local Open Scope Z_scope.

(** ** backend/gemini_utils.py: the rate limiter *)

Module RateLimit.

(** [class RateLimiter]: the single attribute [requests] maps a user id to
    the list of the times of its admitted requests, oldest first. *)
Record RateLimiter := { requests : gmap Z (list Z) }.

(** [RateLimiter.__init__] *)
Definition init : RateLimiter := {| requests := ∅ |}.

(** The list comprehension
    [[req_time for req_time in l if req_time > window_start]]. *)
Definition recent (window_start : Z) (l : list Z) : list Z :=
  filter (λ req_time, window_start < req_time) l.

(** [RateLimiter.is_allowed(user_id, max_requests, window_minutes)], called
    when the clock reads [current_time]. *)
Definition is_allowed (self : RateLimiter) (current_time : Z) (user_id : Z)
    (max_requests : Z) (window_minutes : Z) : bool * RateLimiter :=
  let window_start := current_time - window_minutes * 60 in
  let requests1 :=
    match requests self !! user_id with
    | None => <[user_id := []]> (requests self)
    | Some _ => requests self
    end in
  let kept := recent window_start (default [] (requests1 !! user_id)) in
  let requests2 := <[user_id := kept]> requests1 in
  if bool_decide (Z.of_nat (length kept) < max_requests)
  then (true, {| requests := <[user_id := kept ++ [current_time]]> requests2 |})
  else (false, {| requests := requests2 |}).

(** The defaults of the signature: [max_requests = 10], [window_minutes = 60]. *)
Definition default_max_requests : Z := 10.
Definition default_window_minutes : Z := 60.

(** The timestamps stored for a user; a user without an entry has none. *)
Definition window_of (self : RateLimiter) (user_id : Z) : list Z :=
  default [] (requests self !! user_id).

(** [get_generation_stats(user_id)]: the returned dictionary. *)
Record Stats := {
  requests_in_last_hour : Z;
  max_requests_per_hour : Z;
  remaining_requests : Z
}.

(** [get_generation_stats] reads the global [rate_limiter]; it is given here
    the limiter and returns it next to the statistics, as the function leaves
    it. *)
Definition get_generation_stats (rate_limiter : RateLimiter) (current_time : Z)
    (user_id : Z) : Stats * RateLimiter :=
  let window_start := current_time - 60 * 60 in
  let user_requests := default [] (requests rate_limiter !! user_id) in
  let recent_requests := recent window_start user_requests in
  ({| requests_in_last_hour := Z.of_nat (length recent_requests);
      max_requests_per_hour := 10;
      remaining_requests := Z.max 0 (10 - Z.of_nat (length recent_requests)) |},
   rate_limiter).

(** A run of calls to [is_allowed] with one fixed [max_requests]: each call
    has its own clock reading, user and window. *)
Record Call := { call_time : Z; call_user : Z; call_window : Z }.

Fixpoint run (max_requests : Z) (calls : list Call) (self : RateLimiter)
    : RateLimiter :=
  match calls with
  | [] => self
  | c :: rest =>
      run max_requests rest
        (is_allowed self (call_time c) (call_user c) max_requests
           (call_window c)).2
  end.

(** The rate limiter as claim C1 words it: the purge removes the timestamps
    older than [now - window], so a timestamp equal to [now - window] stays. *)
Definition is_allowed_as_worded (self : RateLimiter) (now : Z) (identity : Z)
    (max_requests : Z) (window : Z) : bool * RateLimiter :=
  let kept := filter (λ t, ¬ (t < now - window)) (window_of self identity) in
  if bool_decide (Z.of_nat (length kept) < max_requests)
  then (true, {| requests := <[identity := kept ++ [now]]> (requests self) |})
  else (false, {| requests := <[identity := kept]> (requests self) |}).

End RateLimit.

(** ** Python string operations used by the two modules *)

Module PyStr.

Definition code (c : ascii) : Z := Z.of_N (Ascii.N_of_ascii c).

Definition is_upper (c : ascii) : bool := (65 <=? code c) && (code c <=? 90).
Definition is_lower (c : ascii) : bool := (97 <=? code c) && (code c <=? 122).
Definition is_digit (c : ascii) : bool := (48 <=? code c) && (code c <=? 57).

(** [str.isspace] on one character: tab to carriage return, the four
    separators 28..31, the space, and the two upper whitespace characters
    (next line, no-break space). *)
Definition is_space (c : ascii) : bool :=
  ((9 <=? code c) && (code c <=? 13)) || ((28 <=? code c) && (code c <=? 31))
  || (code c =? 32) || (code c =? 133) || (code c =? 160).

Fixpoint lstrip (s : string) : string :=
  match s with
  | String c rest => if is_space c then lstrip rest else s
  | EmptyString => EmptyString
  end.

Definition rstrip (s : string) : string := String.rev (lstrip (String.rev s)).

(** [s.strip()] *)
Definition strip (s : string) : string := rstrip (lstrip s).

(** [len(s)] *)
Definition len (s : string) : Z := Z.of_nat (String.length s).

Definition shift (c : ascii) (d : Z) : ascii :=
  Ascii.ascii_of_N (Z.to_N (code c + d)).

(** [c.lower()]: the letters A..Z and the upper-case letters 192..222
    (but not the multiplication sign 215) move 32 places up. *)
Definition lower_char (c : ascii) : ascii :=
  if is_upper c
     || ((192 <=? code c) && (code c <=? 222) && negb (code c =? 215))
  then shift c 32 else c.

Definition upper_char (c : ascii) : ascii :=
  if is_lower c then shift c (-32) else c.

(** [s.lower()] *)
Fixpoint lower (s : string) : string :=
  match s with
  | String c rest => String (lower_char c) (lower rest)
  | EmptyString => EmptyString
  end.

(** [s.title()] on letters A..Z, a..z: a letter is upper-cased after a
    character that is not a letter and lower-cased after a letter. *)
Fixpoint title_from (previous_is_cased : bool) (s : string) : string :=
  match s with
  | String c rest =>
      if is_upper c || is_lower c
      then String (if previous_is_cased then lower_char c else upper_char c)
                  (title_from true rest)
      else String c (title_from false rest)
  | EmptyString => EmptyString
  end.

Definition title (s : string) : string := title_from false s.

(** [re.search] of a one-character class: some character is in the class. *)
Fixpoint search_class (class : ascii → bool) (s : string) : bool :=
  match s with
  | String c rest => class c || search_class class rest
  | EmptyString => false
  end.

Definition LF : string := String (Ascii.ascii_of_N 10) EmptyString.

(** *** [int(s)] of a string *)

(** The characters [int] skips at the two ends of its argument: tab to
    carriage return, the space, and the two upper whitespace characters. *)
Definition is_int_space (c : ascii) : bool :=
  ((9 <=? code c) && (code c <=? 13)) || (code c =? 32)
  || (code c =? 133) || (code c =? 160).

Fixpoint skip_spaces (s : string) : string :=
  match s with
  | String c rest => if is_int_space c then skip_spaces rest else s
  | EmptyString => EmptyString
  end.

(** The digits after the first one: decimal digits, with single underscores
    between digits. The result is the value and the number of digits. *)
Fixpoint more_digits (value : Z) (count : nat) (after_underscore : bool)
    (s : string) : option (Z * nat) :=
  match s with
  | EmptyString => if after_underscore then None else Some (value, count)
  | String c rest =>
      if is_digit c
      then more_digits (value * 10 + (code c - 48)) (S count) false rest
      else if (code c =? 95) && negb after_underscore
      then more_digits value count true rest
      else None
  end.

(** [sys.get_int_max_str_digits()], by default. *)
Definition int_max_str_digits : nat := 4300.

(** [int(s)]: whitespace at the two ends is skipped, a sign may come first,
    then decimal digits; [None] stands for [ValueError]. *)
Definition int_of_string (s : string) : option Z :=
  let trimmed := String.rev (skip_spaces (String.rev (skip_spaces s))) in
  let '(negative, digits) :=
    match trimmed with
    | String c rest =>
        if code c =? 45 then (true, rest)
        else if code c =? 43 then (false, rest)
        else (false, trimmed)
    | EmptyString => (false, trimmed)
    end in
  match digits with
  | String d rest =>
      if is_digit d
      then match more_digits (code d - 48) 1 false rest with
           | Some (value, count) =>
               if (int_max_str_digits <? count)%nat then None
               else Some (if negative then - value else value)
           | None => None
           end
      else None
  | EmptyString => None
  end.

End PyStr.

(** ** backend/gemini_utils.py: the generation gateway *)

Module Gateway.
Import RateLimit.

Inductive Mood :=
  | professional | casual | inspirational | humorous
  | thought_provoking | celebratory | motivational.

Inductive Length := short | medium | long.

Inductive Language := english | spanish | french | german | italian | portuguese.

Definition mood_value (m : Mood) : string :=
  match m with
  | professional => "professional" | casual => "casual"
  | inspirational => "inspirational" | humorous => "humorous"
  | thought_provoking => "thought-provoking" | celebratory => "celebratory"
  | motivational => "motivational"
  end.

Definition length_value (l : Length) : string :=
  match l with short => "short" | medium => "medium" | long => "long" end.

Definition language_value (l : Language) : string :=
  match l with
  | english => "english" | spanish => "spanish" | french => "french"
  | german => "german" | italian => "italian" | portuguese => "portuguese"
  end.

(** [class PostGenerationRequest] *)
Record PostGenerationRequest := {
  mood : Mood;
  length : Length;
  language : Language;
  topic : string
}.

(** [PostGenerationRequest.validate_topic] *)
Definition validate_topic (v : string) : string + string :=
  if 200 <? PyStr.len v
  then inl "Topic must be less than 200 characters"%string
  else inr (PyStr.strip v).

(** [length_mapping] and [mood_instructions]; every value of the two
    enumerations is a key, so [.get(key, default)] never takes the default. *)
Definition length_mapping (l : Length) : string :=
  match l with
  | short => "1-2 sentences (maximum 280 characters)"
  | medium => "2-4 sentences (maximum 500 characters)"
  | long => "4-6 sentences (maximum 800 characters)"
  end.

Definition mood_instructions (m : Mood) : string :=
  match m with
  | professional => "Use formal language, industry insights, and business-focused content"
  | casual => "Use conversational tone, relatable examples, and friendly language"
  | inspirational => "Focus on motivation, personal growth, and positive messages"
  | humorous => "Include light humor, witty observations, but keep it professional"
  | thought_provoking => "Ask questions, share insights, encourage discussion"
  | celebratory => "Acknowledge achievements, milestones, or positive news"
  | motivational => "Encourage action, share success stories, inspire others"
  end.

(** The prompt text, line by line as in the source. *)
Definition base_prompt (request : PostGenerationRequest) : string :=
  let LF := PyStr.LF in
  let head :=
    LF +:+ "    Create a LinkedIn post with the following specifications:" +:+ LF
    +:+ "    " +:+ LF
    +:+ "    - Mood/Tone: " +:+ mood_instructions (mood request) +:+ LF
    +:+ "    - Length: " +:+ length_mapping (length request) +:+ LF
    +:+ "    - Language: " +:+ PyStr.title (language_value (language request)) +:+ LF
    +:+ "    " in
  let with_topic :=
    if String.eqb (topic request) "" then head
    else head +:+ "- Topic/Focus: " +:+ topic request +:+ LF in
  with_topic
    +:+ LF +:+ "    Requirements:" +:+ LF
    +:+ "    - Make it engaging and likely to generate meaningful engagement" +:+ LF
    +:+ "    - Include relevant hashtags (2-5 maximum)" +:+ LF
    +:+ "    - Ensure it's appropriate for a professional network" +:+ LF
    +:+ "    - Make it authentic and valuable to the reader" +:+ LF
    +:+ "    - Do not include any promotional content or sales pitches" +:+ LF
    +:+ "    - Format it properly for LinkedIn (use line breaks where appropriate)" +:+ LF
    +:+ "    " +:+ LF
    +:+ "    Generate only the post content, no additional explanations." +:+ LF
    +:+ "    ".

(** What can be raised inside the [try] block, by the order of the
    [except] clauses: [ResourceExhausted], any other [GoogleAPIError], any
    other [Exception]. *)
Inductive Raised := ResourceExhausted | GoogleAPIError | OtherException.

(** The provider's response object: reading [response.text] gives a string,
    gives [None], or raises. *)
Record Response := { text : Raised + option string }.

(** One call of [model.generate_content(prompt, generation_config)]: it
    raises, returns nothing, or returns a response. *)
Definition Provider := string → Raised + option Response.

Record Metadata := {
  meta_mood : Mood;
  meta_length : Length;
  meta_language : Language;
  character_count : Z
}.

(** The returned dictionary: [{"success": True, "post", "metadata"}] or
    [{"success": False, "error", "error_type"}]. *)
Inductive Result :=
  | Success (post : string) (metadata : Metadata)
  | Failure (error : string) (error_type : string).

(** The process-wide state the function touches: the global [rate_limiter]
    and, to count provider calls, the prompts sent to the provider so far. *)
Record World := {
  rate_limiter : RateLimiter;
  provider_calls : list string
}.

(** The body of the [try] block, after the provider has answered. *)
Definition handle_response (request : PostGenerationRequest)
    (response : option Response) : Raised + Result :=
  let empty := Failure "Failed to generate content. Please try again."
                       "empty_response" in
  match response with
  | None => inr empty
  | Some r =>
      match text r with
      | inl e => inl e
      | inr None => inr empty
      | inr (Some t) =>
          if String.eqb t "" then inr empty
          else
            let generated_post := PyStr.strip t in
            if PyStr.len generated_post <? 10
            then inr (Failure "Generated content too short. Please try again."
                              "content_too_short")
            else inr (Success generated_post
                        {| meta_mood := mood request;
                           meta_length := length request;
                           meta_language := language request;
                           character_count := PyStr.len generated_post |})
      end
  end.

(** The three [except] clauses. *)
Definition handle_raised (e : Raised) : Result :=
  match e with
  | ResourceExhausted =>
      Failure "AI service quota exceeded. Please try again later." "quota_exceeded"
  | GoogleAPIError =>
      Failure "AI service temporarily unavailable. Please try again later." "api_error"
  | OtherException =>
      Failure "An unexpected error occurred. Please try again." "unexpected_error"
  end.

(** [generate_linkedin_post(request, user_id)], called when the clock reads
    [current_time], with [model] the provider. *)
Definition generate_linkedin_post (model : Provider) (world : World)
    (current_time : Z) (request : PostGenerationRequest) (user_id : Z)
    : Result * World :=
  let '(allowed, limiter) :=
    is_allowed (rate_limiter world) current_time user_id
      default_max_requests default_window_minutes in
  if negb allowed
  then (Failure "Rate limit exceeded. Please try again later." "rate_limit",
        {| rate_limiter := limiter; provider_calls := provider_calls world |})
  else
    let prompt := base_prompt request in
    let world' := {| rate_limiter := limiter;
                     provider_calls := provider_calls world ++ [prompt] |} in
    let outcome :=
      match model prompt with
      | inl e => inl e
      | inr response => handle_response request response
      end in
    (match outcome with
     | inr result => result
     | inl e => handle_raised e
     end, world').

(** The outcome mapping as claim C5 words it: the length threshold is
    applied to the provider's output as it is, and that output is carried. *)
Definition outcome_as_worded (request : PostGenerationRequest) (t : string)
    : Result :=
  if String.eqb t ""
  then Failure "Failed to generate content. Please try again." "empty_response"
  else if PyStr.len t <? 10
  then Failure "Generated content too short. Please try again." "content_too_short"
  else Success t {| meta_mood := mood request;
                    meta_length := length request;
                    meta_language := language request;
                    character_count := PyStr.len t |}.

(** *** Names for the statements about the gateway *)

(** The limiter call made by [generate_linkedin_post]. *)
Definition check (world : World) (now user_id : Z) : bool * RateLimiter :=
  is_allowed (rate_limiter world) now user_id
    default_max_requests default_window_minutes.

(** What the [try] block and its handlers make of the provider's answer. *)
Definition outcome_of (request : PostGenerationRequest)
    (answer : Raised + option Response) : Result :=
  match answer with
  | inl e => handle_raised e
  | inr response =>
      match handle_response request response with
      | inr result => result
      | inl e => handle_raised e
      end
  end.

Definition rate_limited : Result :=
  Failure "Rate limit exceeded. Please try again later." "rate_limit".
Definition empty_response : Result :=
  Failure "Failed to generate content. Please try again." "empty_response".
Definition content_too_short : Result :=
  Failure "Generated content too short. Please try again." "content_too_short".
Definition quota_exceeded : Result :=
  Failure "AI service quota exceeded. Please try again later." "quota_exceeded".
Definition api_error : Result :=
  Failure "AI service temporarily unavailable. Please try again later." "api_error".
Definition unexpected_error : Result :=
  Failure "An unexpected error occurred. Please try again." "unexpected_error".

Definition fresh : World := {| rate_limiter := init; provider_calls := [] |}.

(** A provider that answers every prompt with the text [t]. *)
Definition answering (t : string) : Provider :=
  λ _, inr (Some {| text := inr (Some t) |}).

(** A provider that raises [e] on every prompt. *)
Definition raising (e : Raised) : Provider := λ _, inl e.

Definition a_request : PostGenerationRequest :=
  {| mood := casual; length := short; language := english; topic := "" |}.

(** A limiter in which user 1 has used its ten requests of the hour. *)
Definition exhausted : World :=
  {| rate_limiter := {| requests := {[ 1 := [1; 2; 3; 4; 5; 6; 7; 8; 9; 10] ]} |};
     provider_calls := [] |}.

End Gateway.

(** ** backend/auth.py *)

Module Auth.

(** [HTTPException(status_code, detail, headers)] *)
Record HTTPException := {
  status_code : Z;
  detail : string;
  headers : list (string * string)
}.

Definition HTTP_400_BAD_REQUEST : Z := 400.
Definition HTTP_401_UNAUTHORIZED : Z := 401.
Definition HTTP_500_INTERNAL_SERVER_ERROR : Z := 500.

(** *** The [User] model and its validators *)

(** The character class [[a-zA-Z0-9_]]. *)
Definition word_char (c : ascii) : bool :=
  PyStr.is_lower c || PyStr.is_upper c || PyStr.is_digit c
  || (PyStr.code c =? 95).

(** [re.match(r'^[a-zA-Z0-9_]+$', v)]. After the first character of the
    class, [rest_matches] is [[a-zA-Z0-9_]*$]: Python's [$] holds at the end
    of the string and also just before a line feed that ends the string. *)
Fixpoint rest_matches (s : string) : bool :=
  match s with
  | EmptyString => true
  | String c rest =>
      (word_char c && rest_matches rest)
      || ((PyStr.code c =? 10) && String.eqb rest "")
  end.

Definition username_pattern_matches (v : string) : bool :=
  match v with
  | EmptyString => false
  | String c rest => word_char c && rest_matches rest
  end.

(** A validator returns the value to store ([inr]) or raises [ValueError]
    with a message ([inl]). *)
Definition validate_username (v : string) : string + string :=
  if String.eqb v "" || (PyStr.len v <? 3)
  then inl "Username must be at least 3 characters long"%string
  else if 50 <? PyStr.len v
  then inl "Username must be less than 50 characters"%string
  else if negb (username_pattern_matches v)
  then inl "Username can only contain letters, numbers, and underscores"%string
  else inr (PyStr.lower v).

Definition validate_password (v : string) : string + string :=
  if String.eqb v "" || (PyStr.len v <? 8)
  then inl "Password must be at least 8 characters long"%string
  else if 128 <? PyStr.len v
  then inl "Password must be less than 128 characters"%string
  else if negb (PyStr.search_class PyStr.is_upper v)
  then inl "Password must contain at least one uppercase letter"%string
  else if negb (PyStr.search_class PyStr.is_lower v)
  then inl "Password must contain at least one lowercase letter"%string
  else if negb (PyStr.search_class PyStr.is_digit v)
  then inl "Password must contain at least one digit"%string
  else inr v.

(** [class User(BaseModel)] *)
Record User := { username : string; password : string }.

(** Building a [User] runs both validators; it gives the model, or the
    messages of the validators that raised (a [ValidationError]). *)
Definition User_new (username password : string) : list string + User :=
  match validate_username username, validate_password password with
  | inr u, inr p => inr {| username := u; password := p |}
  | inl eu, inr _ => inl [eu]
  | inr _, inl ep => inl [ep]
  | inl eu, inl ep => inl [eu; ep]
  end.

(** *** The [users] table *)

Record Row := {
  col_id : Z;
  col_username : string;
  col_password : string;
  col_created_at : Z
}.

(** What the handlers send to the database. *)
Inductive Statement :=
  | SelectUsername (username : string)
  | SelectUser (username : string)
  | InsertUser (username password : string) (created_at : Z)
  | Commit
  | Rollback.

(** A database connection: the rows of [users], the next value of the [id]
    sequence, whether the server answers (if not, [cursor.execute] raises),
    and the statements sent so far. *)
Record Db := {
  rows : list Row;
  next_id : Z;
  available : bool;
  executed : list Statement
}.

Definition send (st : Statement) (db : Db) : Db :=
  {| rows := rows db; next_id := next_id db; available := available db;
     executed := executed db ++ [st] |}.

(** [WHERE username = %s] followed by [cursor.fetchone()]. *)
Definition fetchone_by_username (name : string) (db : Db) : option Row :=
  head (filter (λ r, col_username r = name) (rows db)).

Definition insert_user (name hashed : string) (created : Z) (db : Db) : Db :=
  {| rows := rows db ++ [{| col_id := next_id db; col_username := name;
                            col_password := hashed; col_created_at := created |}];
     next_id := next_id db + 1;
     available := available db;
     executed := executed db ++ [InsertUser name hashed created] |}.

(** [class UserResponse(BaseModel)] *)
Record UserResponse := { resp_username : string; message : string }.

(** [class Token(BaseModel)], with the token still structured (see below). *)
Record Token (J : Type) := { access_token : J; token_type : string }.
Arguments access_token {J} _.
Arguments token_type {J} _.

(** *** JSON web tokens *)

(** A claim value: a string or an integer. [JNull] is the [None] that
    [payload.get(key)] gives for a claim the payload does not have; a
    payload is read through [get] below, so a key bound to [JNull] stands
    for an absent claim. Claims that are JSON null, numbers with a
    fraction, booleans, arrays or objects are not covered. *)
Inductive JVal := JNull | JStr (s : string) | JInt (n : Z).

#[global] Instance JVal_eq_dec : EqDecision JVal.
Proof. solve_decision. Defined.

(** A token string: text that is not a signed token of three segments, or a
    header algorithm, a payload and a signature. *)
Inductive Jwt :=
  | Unparsable (raw : string)
  | Signed (alg : string) (payload : gmap string JVal) (signature : string).

(** The exceptions of [jwt.decode]; all are subclasses of [PyJWTError]. *)
Inductive PyJWTError :=
  | ExpiredSignatureError
  | InvalidSignatureError
  | InvalidAlgorithmError
  | DecodeError
  | ImmatureSignatureError
  | InvalidIssuedAtError
  | InvalidAudienceError
  | InvalidSubjectError
  | InvalidJTIError.

(** [payload.get(key)] *)
Definition get (payload : gmap string JVal) (key : string) : JVal :=
  default JNull (payload !! key).

(** [int(value)] of a claim that is present; [None] stands for
    [ValueError]. *)
Definition int_of (value : JVal) : option Z :=
  match value with
  | JInt n => Some n
  | JStr s => PyStr.int_of_string s
  | JNull => None
  end.

(** The truth value of a claim: an empty string and zero are false. *)
Definition truthy (value : JVal) : bool :=
  match value with
  | JNull => false
  | JStr s => negb (String.eqb s "")
  | JInt n => negb (n =? 0)
  end.

(** [isinstance(value, str)] *)
Definition is_str (value : JVal) : bool :=
  match value with JStr _ => true | _ => false end.

(** The claim checks of [jwt.decode] with its default options and no
    audience, issuer or subject given, in the order of the library (PyJWT
    2.10): [iat] and [nbf], when present, must read as integers not later
    than [now]; [exp], when present, must read as an integer later than
    [now]; there must be no audience; [sub] and [jti], when present, must
    be strings. The result is the first exception raised, if any. *)
Definition validate_iat (payload : gmap string JVal) (now : Z) : option PyJWTError :=
  match get payload "iat" with
  | JNull => None
  | value =>
      match int_of value with
      | None => Some InvalidIssuedAtError
      | Some iat => if now <? iat then Some ImmatureSignatureError else None
      end
  end.

Definition validate_nbf (payload : gmap string JVal) (now : Z) : option PyJWTError :=
  match get payload "nbf" with
  | JNull => None
  | value =>
      match int_of value with
      | None => Some DecodeError
      | Some nbf => if now <? nbf then Some ImmatureSignatureError else None
      end
  end.

Definition validate_exp (payload : gmap string JVal) (now : Z) : option PyJWTError :=
  match get payload "exp" with
  | JNull => None
  | value =>
      match int_of value with
      | None => Some DecodeError
      | Some exp => if exp <=? now then Some ExpiredSignatureError else None
      end
  end.

Definition validate_aud (payload : gmap string JVal) : option PyJWTError :=
  if truthy (get payload "aud") then Some InvalidAudienceError else None.

Definition validate_sub (payload : gmap string JVal) : option PyJWTError :=
  match get payload "sub" with
  | JNull => None
  | value => if is_str value then None else Some InvalidSubjectError
  end.

Definition validate_jti (payload : gmap string JVal) : option PyJWTError :=
  match get payload "jti" with
  | JNull => None
  | value => if is_str value then None else Some InvalidJTIError
  end.

Definition validate_claims (payload : gmap string JVal) (now : Z)
    : option PyJWTError :=
  match validate_iat payload now with
  | Some e => Some e
  | None =>
  match validate_nbf payload now with
  | Some e => Some e
  | None =>
  match validate_exp payload now with
  | Some e => Some e
  | None =>
  match validate_aud payload with
  | Some e => Some e
  | None =>
  match validate_sub payload with
  | Some e => Some e
  | None => validate_jti payload
  end end end end end.

(** The least and the greatest second of [datetime]: the first of year 1
    and the last of year 9999, counted from 1970. *)
Definition datetime_min : Z := -62135596800.
Definition datetime_max : Z := 253402300799.

(** The part of [config.Settings] that [auth.py] reads. *)
Record Settings := {
  jwt_secret_key : string;
  jwt_algorithm : string;
  access_token_expire_minutes : Z
}.

Section WithLibraries.

(** The password hashing context ([passlib]) and the signature function of
    the token library ([PyJWT]) are outside the repository.
    [pwd_context.verify] answers [Some] of a boolean, or raises: [None]. *)
Variable pwd_hash : string → string.
Variable pwd_verify : string → string → option bool.
Variable sign : string → string → gmap string JVal → string.
Variable settings : Settings.

(** [jwt.encode(payload, key, algorithm)] *)
Definition jwt_encode (payload : gmap string JVal) (key algorithm : string) : Jwt :=
  Signed algorithm payload (sign algorithm key payload).

(** [jwt.decode(token, key, algorithms=[algorithm])] at time [now]: the
    token is parsed, the header algorithm must be the allowed one, the
    signature is verified, and then the claims are checked. *)
Definition jwt_decode (token : Jwt) (key algorithm : string) (now : Z)
    : PyJWTError + gmap string JVal :=
  match token with
  | Unparsable _ => inl DecodeError
  | Signed alg payload signature =>
      if negb (String.eqb alg algorithm) then inl InvalidAlgorithmError
      else if negb (String.eqb signature (sign alg key payload))
      then inl InvalidSignatureError
      else match validate_claims payload now with
           | Some e => inl e
           | None => inr payload
           end
  end.

(** [create_access_token(data)] at time [now]. Adding the [timedelta] to
    the time raises [OverflowError] when the sum is not a [datetime]:
    [None]. *)
Definition create_access_token (data : gmap string JVal) (now : Z)
    : option Jwt :=
  let expire := now + access_token_expire_minutes settings * 60 in
  if (expire <? datetime_min) || (datetime_max <? expire) then None
  else
    let to_encode :=
      <["type"%string := JStr "access"]>
        (<["iat"%string := JInt now]>
           (<["exp"%string := JInt expire]> data)) in
    Some (jwt_encode to_encode (jwt_secret_key settings) (jwt_algorithm settings)).

(** [signup(user, db)] at time [now]: the response or the raised
    [HTTPException], and the connection as the handler leaves it. *)
Definition signup (user : User) (db : Db) (now : Z)
    : (HTTPException + UserResponse) * Db :=
  let hashed_password := pwd_hash (password user) in
  if negb (available db)
  then (inl {| status_code := HTTP_500_INTERNAL_SERVER_ERROR;
               detail := "Internal server error during signup";
               headers := [] |},
        send Rollback db)
  else
    let db1 := send (SelectUsername (username user)) db in
    match fetchone_by_username (username user) db1 with
    | Some _ =>
        (inl {| status_code := HTTP_400_BAD_REQUEST;
                detail := "Username already exists";
                headers := [] |}, db1)
    | None =>
        let db2 := send Commit (insert_user (username user) hashed_password now db1) in
        (inr {| resp_username := username user;
                message := "User created successfully" |}, db2)
    end.

(** [POST /signup] with a JSON body: the framework builds the [User] from
    the body before it calls the handler; when a validator raises the handler
    is not called. *)
Inductive SignupOutcome :=
  | ValidationError (errors : list string)
  | Raised (e : HTTPException)
  | Created (r : UserResponse).

Definition create_user (username password : string) (db : Db) (now : Z)
    : SignupOutcome * Db :=
  match User_new username password with
  | inl errors => (ValidationError errors, db)
  | inr user =>
      match signup user db now with
      | (inl e, db') => (Raised e, db')
      | (inr r, db') => (Created r, db')
      end
  end.

(** [login(form_data, db)] at time [now]. *)
Definition login (form_username form_password : string) (db : Db) (now : Z)
    : (HTTPException + Token Jwt) * Db :=
  if negb (available db)
  then (inl {| status_code := HTTP_500_INTERNAL_SERVER_ERROR;
               detail := "Internal server error during login";
               headers := [] |}, db)
  else
    let db1 := send (SelectUser (PyStr.lower form_username)) db in
    let user := fetchone_by_username (PyStr.lower form_username) db1 in
    let unauthorized :=
      {| status_code := HTTP_401_UNAUTHORIZED;
         detail := "Invalid username or password";
         headers := [("WWW-Authenticate", "Bearer")] |} in
    let internal_error :=
      {| status_code := HTTP_500_INTERNAL_SERVER_ERROR;
         detail := "Internal server error during login";
         headers := [] |} in
    match user with
    | None => (inl unauthorized, db1)
    | Some row =>
        match pwd_verify form_password (col_password row) with
        | None => (inl internal_error, db1)
        | Some false => (inl unauthorized, db1)
        | Some true =>
            match create_access_token
                    (<["user_id"%string := JInt (col_id row)]>
                       {["sub"%string := JStr (col_username row)]}) now with
            | None => (inl internal_error, db1)
            | Some access_token =>
                (inr {| access_token := access_token; token_type := "bearer" |},
                 db1)
            end
        end
    end.

(** The dictionary returned by [get_current_user]. *)
Record CurrentUser := { cu_username : JVal; cu_user_id : JVal }.

(** [get_current_user(token)] at time [now]. *)
Definition get_current_user (token : Jwt) (now : Z) : HTTPException + CurrentUser :=
  let credentials_exception :=
    {| status_code := HTTP_401_UNAUTHORIZED;
       detail := "Could not validate credentials";
       headers := [("WWW-Authenticate", "Bearer")] |} in
  match jwt_decode token (jwt_secret_key settings) (jwt_algorithm settings) now with
  | inr payload =>
      let username := get payload "sub" in
      let user_id := get payload "user_id" in
      let token_type := get payload "type" in
      if bool_decide (username = JNull) || bool_decide (user_id = JNull)
         || negb (bool_decide (token_type = JStr "access"))
      then inl credentials_exception
      else inr {| cu_username := username; cu_user_id := user_id |}
  | inl ExpiredSignatureError =>
      inl {| status_code := HTTP_401_UNAUTHORIZED;
             detail := "Token has expired";
             headers := [("WWW-Authenticate", "Bearer")] |}
  | inl _ => inl credentials_exception
  end.

End WithLibraries.

(** *** Names for the statements about [auth.py] *)

Definition bearer_challenge : list (string * string) :=
  [("WWW-Authenticate", "Bearer")]%string.

(** The exception [get_current_user] raises for a token it cannot accept. *)
Definition credentials_exception : HTTPException :=
  {| status_code := HTTP_401_UNAUTHORIZED;
     detail := "Could not validate credentials";
     headers := bearer_challenge |}.

(** The exception [get_current_user] raises for an expired token. *)
Definition expired_exception : HTTPException :=
  {| status_code := HTTP_401_UNAUTHORIZED;
     detail := "Token has expired";
     headers := bearer_challenge |}.

(** The exception [login] raises for a failed credential check. *)
Definition login_failure : HTTPException :=
  {| status_code := HTTP_401_UNAUTHORIZED;
     detail := "Invalid username or password";
     headers := bearer_challenge |}.

(** The exception [signup] raises for a username that is taken. *)
Definition username_exists : HTTPException :=
  {| status_code := HTTP_400_BAD_REQUEST;
     detail := "Username already exists";
     headers := [] |}.

(** The exception [login] raises when something in its [try] block raises. *)
Definition login_error : HTTPException :=
  {| status_code := HTTP_500_INTERNAL_SERVER_ERROR;
     detail := "Internal server error during login";
     headers := [] |}.

(** The claim [key], when the payload has it, reads as an integer that
    satisfies [holds]. *)
Definition time_claim (payload : gmap string JVal) (key : string)
    (holds : Z → Prop) : Prop :=
  get payload key = JNull
  ∨ ∃ t, int_of (get payload key) = Some t ∧ holds t.

(** The expiry claim of a payload has not passed at [now]; a payload
    without the claim does not expire. *)
Definition unexpired (payload : gmap string JVal) (now : Z) : Prop :=
  time_claim payload "exp" (λ exp, now < exp).

(** The issue time and the not-before time of a payload, when it has them,
    are not later than [now]. *)
Definition not_early (payload : gmap string JVal) (now : Z) : Prop :=
  time_claim payload "iat" (λ iat, iat ≤ now)
  ∧ time_claim payload "nbf" (λ nbf, nbf ≤ now).

(** The payload names no audience, and its subject and its token id, when
    it has them, are strings. *)
Definition plain_claims (payload : gmap string JVal) : Prop :=
  truthy (get payload "aud") = false
  ∧ (get payload "sub" = JNull ∨ is_str (get payload "sub") = true)
  ∧ (get payload "jti" = JNull ∨ is_str (get payload "jti") = true).

(** The expiry of a token created at [now] is a [datetime]. *)
Definition expiry_in_range (settings : Settings) (now : Z) : Prop :=
  datetime_min ≤ now + access_token_expire_minutes settings * 60 ≤ datetime_max.

(** The claims [login] puts in the token of a row. *)
Definition claims_of (row : Row) : gmap string JVal :=
  <["user_id"%string := JInt (col_id row)]>
    {["sub"%string := JStr (col_username row)]}.

(** Acceptance as claim C6 words it: the signature verifies under the
    configured secret, the expiry has not passed, the type is "access" and
    the two identity claims are present. *)
Definition accepted_as_worded
    (sign : string → string → gmap string JVal → string)
    (settings : Settings) (token : Jwt) (now : Z) (cu : CurrentUser) : Prop :=
  ∃ payload,
    token = Signed (jwt_algorithm settings) payload
              (sign (jwt_algorithm settings) (jwt_secret_key settings) payload)
    ∧ unexpired payload now
    ∧ get payload "type" = JStr "access"
    ∧ get payload "sub" = cu_username cu ∧ cu_username cu ≠ JNull
    ∧ get payload "user_id" = cu_user_id cu ∧ cu_user_id cu ≠ JNull.

(** The rows of the table for one username. *)
Definition rows_of (name : string) (db : Db) : list Row :=
  filter (λ r, col_username r = name) (rows db).

(** All the characters of a string are in [[a-zA-Z0-9_]]. *)
Fixpoint all_word_chars (s : string) : bool :=
  match s with
  | EmptyString => true
  | String c rest => word_char c && all_word_chars rest
  end.

(** An empty table on a server that answers. *)
Definition empty_db : Db :=
  {| rows := []; next_id := 1; available := true; executed := [] |}.

(** *** Stand-ins for the libraries, for the examples *)

Definition demo_settings : Settings :=
  {| jwt_secret_key := "0123456789abcdef0123456789abcdef";
     jwt_algorithm := "HS256";
     access_token_expire_minutes := 30 |}.

(** The same settings with a lifetime of minus one minute. *)
Definition short_lived_settings : Settings :=
  {| jwt_secret_key := "0123456789abcdef0123456789abcdef";
     jwt_algorithm := "HS256";
     access_token_expire_minutes := -1 |}.

Definition demo_sign (alg key : string) (payload : gmap string JVal) : string :=
  (alg +:+ ":" +:+ key +:+ ":"
   +:+ match payload !! "sub"%string with Some (JStr s) => s | _ => "" end)%string.

Definition demo_hash (pw : string) : string := ("$2b$12$" +:+ pw)%string.

(** The stand-in checks a password against a hash it made, and raises on
    a stored value that is not such a hash. *)
Definition demo_verify (pw hashed : string) : option bool :=
  if String.prefix "$2b$12$" hashed
  then Some (String.eqb hashed (demo_hash pw))
  else None.

(** The claims [login] puts in a token for user 1, alice. *)
Definition alice_claims : gmap string JVal :=
  <["user_id"%string := JInt 1]> {["sub"%string := JStr "alice"]}.

(** A table with one user whose stored password is not a hash. *)
Definition legacy_db : Db :=
  {| rows := [ {| col_id := 1; col_username := "mallory";
                  col_password := "plaintext";
                  col_created_at := 0 |} ];
     next_id := 2; available := true; executed := [] |}.

(** Claims of alice with an expiry at 2000 and an audience. *)
Definition audience_claims : gmap string JVal :=
  <["aud"%string := JStr "another-service"]>
    (<["type"%string := JStr "access"]>
       (<["exp"%string := JInt 2000]>
          (<["user_id"%string := JInt 1]> {["sub"%string := JStr "alice"]}))).

(** Claims of alice with an expiry at 2000, issued at 1000. *)
Definition future_claims : gmap string JVal :=
  <["iat"%string := JInt 1000]>
    (<["type"%string := JStr "access"]>
       (<["exp"%string := JInt 2000]>
          (<["user_id"%string := JInt 1]> {["sub"%string := JStr "alice"]}))).

(** A table with the one user alice, whose password is "Passw0rd". *)
Definition alice_db : Db :=
  {| rows := [ {| col_id := 1; col_username := "alice";
                  col_password := demo_hash "Passw0rd";
                  col_created_at := 0 |} ];
     next_id := 2; available := true; executed := [] |}.

End Auth.

(** ** main.py: the two protected endpoints *)

Module Main.
Import RateLimit Gateway Auth.

Definition HTTP_429_TOO_MANY_REQUESTS : Z := 429.
Definition HTTP_503_SERVICE_UNAVAILABLE : Z := 503.

(** The dictionary [generate_post] returns. *)
Record PostResponse := {
  success : bool;
  post : string;
  metadata : Metadata;
  user : JVal
}.

(** [generate_post(request, current_user)] at time [now], for a current
    user whose [user_id] is the integer [user_id]. An [HTTPException] made
    here carries no headers. *)
Definition generate_post (model : Provider) (world : World) (now : Z)
    (request : PostGenerationRequest) (username : JVal) (user_id : Z)
    : (HTTPException + PostResponse) * World :=
  let '(result, world') :=
    generate_linkedin_post model world now request user_id in
  match result with
  | Failure error error_type =>
      let status :=
        if String.eqb error_type "rate_limit" then HTTP_429_TOO_MANY_REQUESTS
        else if String.eqb error_type "quota_exceeded"
        then HTTP_503_SERVICE_UNAVAILABLE
        else HTTP_500_INTERNAL_SERVER_ERROR in
      (inl {| status_code := status; detail := error; headers := [] |}, world')
  | Success generated_post meta =>
      (inr {| success := true; post := generated_post; metadata := meta;
              user := username |}, world')
  end.

(** The dictionary [get_user_stats] returns. *)
Record StatsResponse := { stats_user : JVal; stats : Stats }.

(** [get_user_stats(current_user)] at time [now]. *)
Definition get_user_stats (world : World) (now : Z) (username : JVal)
    (user_id : Z) : StatsResponse * World :=
  let '(st, limiter) := get_generation_stats (rate_limiter world) now user_id in
  ({| stats_user := username; stats := st |},
   {| rate_limiter := limiter; provider_calls := provider_calls world |}).

Section WithToken.

Variable sign : string → string → gmap string JVal → string.
Variable settings : Settings.

(** [POST /generate] with a bearer token: the dependency
    [get_current_user] runs first, and when it raises the handler is not
    called. The limiter is keyed by integers here, so a token whose
    [user_id] claim is not an integer is not covered: [None]. *)
Definition post_generate (model : Provider) (token : Jwt) (world : World)
    (now : Z) (request : PostGenerationRequest)
    : option ((HTTPException + PostResponse) * World) :=
  match get_current_user sign settings token now with
  | inl e => Some (inl e, world)
  | inr current_user =>
      match cu_user_id current_user with
      | JInt user_id =>
          Some (generate_post model world now request
                  (cu_username current_user) user_id)
      | _ => None
      end
  end.

End WithToken.

End Main.

(** ** config.py *)

Module Config.

(** [class Settings]: a variable that has no default in the source may be
    unset, and its field is then [None]. *)
Record Settings := {
  db_user : string;
  db_password : option string;
  db_host : string;
  db_port : string;
  db_name : string;
  jwt_secret_key : option string;
  jwt_algorithm : string;
  access_token_expire_minutes : Z;
  google_api_key : option string;
  allowed_origins : list string
}.

(** [not value] for a value that is a string or [None]. *)
Definition falsy (value : option string) : bool :=
  match value with
  | None => true
  | Some v => String.eqb v ""
  end.

(** [sep.join(parts)] *)
Fixpoint join (sep : string) (parts : list string) : string :=
  match parts with
  | [] => ""
  | [p] => p
  | p :: rest => p +:+ sep +:+ join sep rest
  end.

(** [Settings.validate_required_settings]: it returns, or raises a
    [ValueError] with a message ([inl]). *)
Definition validate_required_settings (self : Settings) : string + unit :=
  let required_settings :=
    [ ("DB_PASSWORD"%string, db_password self);
      ("JWT_SECRET_KEY"%string, jwt_secret_key self);
      ("GOOGLE_API_KEY"%string, google_api_key self) ] in
  let missing :=
    (filter (λ nv, falsy nv.2 = true) required_settings).*1 in
  match missing with
  | _ :: _ =>
      inl ("Missing required environment variables: " +:+ join ", " missing)%string
  | [] =>
      if PyStr.len (default ""%string (jwt_secret_key self)) <? 32
      then inl "JWT_SECRET_KEY must be at least 32 characters long"%string
      else inr tt
  end.

End Config.

(** ** generate_secret.py *)

Module GenerateSecret.

(** [string.ascii_letters] and [string.digits] *)
Definition ascii_letters : string :=
  "abcdefghijklmnopqrstuvwxyzABCDEFGHIJKLMNOPQRSTUVWXYZ".
Definition digits : string := "0123456789".

(** [secrets.choice(alphabet)], where the random source has drawn [draw]:
    the character at the place [draw] reduced below the length. *)
Definition choice (draw : nat) (alphabet : string) : ascii :=
  default Ascii.zero (String.get (draw mod String.length alphabet) alphabet).

(** [''.join(secrets.choice(alphabet) for _ in range(n))], the draws being
    [draws first], [draws (first + 1)], ... *)
Fixpoint choices (draws : nat → nat) (alphabet : string) (first n : nat)
    : string :=
  match n with
  | O => EmptyString
  | S n' =>
      String (choice (draws first) alphabet)
             (choices draws alphabet (S first) n')
  end.

(** [generate_secure_jwt_secret(length)] *)
Definition generate_secure_jwt_secret (draws : nat → nat) (length : Z) : string :=
  let alphabet := (ascii_letters +:+ digits +:+ "!@#$%^&*")%string in
  choices draws alphabet 0 (Z.to_nat length).

(** [generate_secure_password(length)] *)
Definition generate_secure_password (draws : nat → nat) (length : Z) : string :=
  let alphabet := (ascii_letters +:+ digits)%string in
  choices draws alphabet 0 (Z.to_nat length).

Definition default_jwt_secret_length : Z := 64.
Definition default_password_length : Z := 32.

(** The character is one of the string. *)
Fixpoint occurs (c : ascii) (s : string) : bool :=
  match s with
  | EmptyString => false
  | String c' rest => Ascii.eqb c c' || occurs c rest
  end.

(** Every character of [s] satisfies [class]. *)
Fixpoint all_chars (class : ascii → bool) (s : string) : bool :=
  match s with
  | EmptyString => true
  | String c rest => class c && all_chars class rest
  end.

End GenerateSecret.

(** ** Predicates for the statements about runs and tables *)

Module Invariants.
Import RateLimit Auth.

(** The list is in non-decreasing order and nothing in it is later than
    [now]. *)
Definition ordered_until (now : Z) (l : list Z) : Prop :=
  StronglySorted Z.le l ∧ Forall (λ t, t ≤ now) l.

(** The times of the calls do not go back, starting from [start]. *)
Fixpoint monotone_from (start : Z) (calls : list Call) : Prop :=
  match calls with
  | [] => True
  | c :: rest => start ≤ call_time c ∧ monotone_from (call_time c) rest
  end.

(** The table has one row for a username at most, and its ids are distinct
    and below the next value of the sequence. *)
Definition table_ok (db : Db) : Prop :=
  NoDup (col_username <$> rows db)
  ∧ NoDup (col_id <$> rows db)
  ∧ Forall (λ r, col_id r < next_id db) (rows db).

(** One signup request: username, password, time. *)
Record SignupRequest := { su_name : string; su_password : string; su_time : Z }.

(** A run of signup requests on one connection. *)
Fixpoint signups (pwd_hash : string → string) (reqs : list SignupRequest)
    (db : Db) : Db :=
  match reqs with
  | [] => db
  | r :: rest =>
      signups pwd_hash rest
        (create_user pwd_hash (su_name r) (su_password r) db (su_time r)).2
  end.

(** The first and the last character of a string. *)
Definition first_char (s : string) : option ascii :=
  match s with EmptyString => None | String c _ => Some c end.

Fixpoint last_char (s : string) : option ascii :=
  match s with
  | EmptyString => None
  | String c EmptyString => Some c
  | String _ rest => last_char rest
  end.

End Invariants.

(** ** Properties of the rate limiter *)

Module RateLimitFacts.
Import RateLimit.

Lemma recent_length ws l : (length (recent ws l) ≤ length l)%nat.
Proof. apply length_filter. Qed.

Lemma recent_all ws l : Forall (λ t, ws < t) l → recent ws l = l.
Proof.
  induction 1 as [|t l Ht _ IH]; [done|].
  unfold recent in *. by rewrite filter_cons_True, IH.
Qed.

Lemma recent_drop ws t l : t ≤ ws → recent ws (t :: l) = recent ws l.
Proof. intros Ht. unfold recent. rewrite filter_cons_False; [done|lia]. Qed.

Lemma recent_elem ws l t : t ∈ recent ws l ↔ ws < t ∧ t ∈ l.
Proof. unfold recent. by rewrite list_elem_of_filter. Qed.

(** One call, with the entry creation and the two assignments to
    [self.requests[user_id]] folded into one update of the dictionary. *)
Lemma is_allowed_unfold self now u m w :
  is_allowed self now u m w =
    let kept := recent (now - w * 60) (window_of self u) in
    if bool_decide (Z.of_nat (length kept) < m)
    then (true, {| requests := <[u := kept ++ [now]]> (requests self) |})
    else (false, {| requests := <[u := kept]> (requests self) |}).
Proof.
  unfold is_allowed, window_of.
  destruct (requests self !! u) as [l|] eqn:E; cbn zeta.
  - rewrite E. cbn. case_bool_decide; [by rewrite insert_insert_eq|done].
  - rewrite lookup_insert_eq. cbn.
    case_bool_decide; by rewrite !insert_insert_eq.
Qed.

Lemma is_allowed_result self now u m w :
  (is_allowed self now u m w).1 =
    bool_decide (Z.of_nat (length (recent (now - w * 60) (window_of self u))) < m).
Proof. rewrite is_allowed_unfold. cbn zeta. by case_bool_decide. Qed.

Lemma is_allowed_window self now u m w :
  window_of (is_allowed self now u m w).2 u =
    let kept := recent (now - w * 60) (window_of self u) in
    if bool_decide (Z.of_nat (length kept) < m) then kept ++ [now] else kept.
Proof.
  rewrite is_allowed_unfold. cbn zeta.
  case_bool_decide; unfold window_of at 1; cbn; by rewrite lookup_insert_eq.
Qed.

Lemma is_allowed_other self now u m w v :
  u ≠ v → window_of (is_allowed self now u m w).2 v = window_of self v.
Proof.
  intros Hne. rewrite is_allowed_unfold. cbn zeta.
  case_bool_decide; unfold window_of; cbn; by rewrite lookup_insert_ne.
Qed.

Lemma is_allowed_accept self now u m w :
  (is_allowed self now u m w).1 = true →
  window_of (is_allowed self now u m w).2 u =
    recent (now - w * 60) (window_of self u) ++ [now].
Proof.
  rewrite is_allowed_result, is_allowed_window. cbn zeta.
  intros H. by rewrite H.
Qed.

Lemma is_allowed_reject self now u m w :
  (is_allowed self now u m w).1 = false →
  window_of (is_allowed self now u m w).2 u =
    recent (now - w * 60) (window_of self u).
Proof.
  rewrite is_allowed_result, is_allowed_window. cbn zeta.
  intros H. by rewrite H.
Qed.

(** The bound on the stored list is kept by one call, for every user. *)
Lemma is_allowed_bound self now u m w v :
  0 ≤ m →
  Z.of_nat (length (window_of self v)) ≤ m →
  Z.of_nat (length (window_of (is_allowed self now u m w).2 v)) ≤ m.
Proof.
  intros Hm Hv. destruct (decide (u = v)) as [<-|Hne].
  - rewrite is_allowed_window. cbn zeta.
    pose proof (recent_length (now - w * 60) (window_of self u)).
    case_bool_decide; [rewrite length_app; cbn|]; lia.
  - by rewrite is_allowed_other.
Qed.

Lemma run_bound m calls : ∀ self v,
  0 ≤ m →
  Z.of_nat (length (window_of self v)) ≤ m →
  Z.of_nat (length (window_of (run m calls self) v)) ≤ m.
Proof.
  induction calls as [|c rest IH]; intros self v Hm Hv; [done|].
  cbn. apply IH; [done|]. by apply is_allowed_bound.
Qed.

Lemma accept_step self now u m w l :
  window_of self u = l →
  Forall (λ t, now - w * 60 < t) l →
  Z.of_nat (length l) < m →
  (is_allowed self now u m w).1 = true
  ∧ window_of (is_allowed self now u m w).2 u = l ++ [now].
Proof.
  intros Hl Hall Hlt.
  rewrite is_allowed_result, is_allowed_window. cbn zeta.
  rewrite Hl, (recent_all _ _ Hall).
  by rewrite bool_decide_eq_true_2.
Qed.

Lemma reject_step self now u m w l :
  window_of self u = l →
  Forall (λ t, now - w * 60 < t) l →
  m ≤ Z.of_nat (length l) →
  (is_allowed self now u m w).1 = false
  ∧ window_of (is_allowed self now u m w).2 u = l.
Proof.
  intros Hl Hall Hge.
  rewrite is_allowed_result, is_allowed_window. cbn zeta.
  rewrite Hl, (recent_all _ _ Hall).
  rewrite bool_decide_eq_false_2; [done|lia].
Qed.

(** The answer for a user and the list then stored for it depend only on
    what is stored for that user. *)
Lemma is_allowed_local s s' now u m w :
  window_of s u = window_of s' u →
  (is_allowed s now u m w).1 = (is_allowed s' now u m w).1
  ∧ window_of (is_allowed s now u m w).2 u
    = window_of (is_allowed s' now u m w).2 u.
Proof.
  intros H. rewrite !is_allowed_result, !is_allowed_window. cbn zeta.
  by rewrite H.
Qed.

(** C1 (as amended): one call of [is_allowed] keeps, of the identity's
    timestamps, those newer than [now - window] (a timestamp exactly
    [window] old is removed with the older ones); if fewer than
    [max_requests] are kept it appends [now] and answers true, otherwise it
    answers false and stores the kept ones only; other identities' entries
    are not touched. With [max_requests = 3] and a window of one minute:
    three calls for [x] within one window are admitted, the fourth is
    rejected, a call once the first timestamp is a window old is admitted,
    and a call for another identity [y] after the exhaustion of [x] answers
    as it would have before. *)
Theorem C1_is_allowed_sliding_window :
  (∀ self now u m w,
     let kept := recent (now - w * 60) (window_of self u) in
     (∀ t, t ∈ kept ↔ now - w * 60 < t ∧ t ∈ window_of self u)
     ∧ is_allowed self now u m w =
         (if bool_decide (Z.of_nat (length kept) < m)
          then (true, {| requests := <[u := kept ++ [now]]> (requests self) |})
          else (false, {| requests := <[u := kept]> (requests self) |}))
     ∧ (∀ v, u ≠ v →
          window_of (is_allowed self now u m w).2 v = window_of self v))
  ∧ (∀ s0 x y t1 t2 t3 t4 t5 ty my wy,
       x ≠ y →
       window_of s0 x = [] →
       t1 ≤ t2 → t2 ≤ t3 → t3 ≤ t4 → t4 < t1 + 60 →
       t4 ≤ t5 → t1 + 60 ≤ t5 →
       let r1 := is_allowed s0 t1 x 3 1 in
       let r2 := is_allowed r1.2 t2 x 3 1 in
       let r3 := is_allowed r2.2 t3 x 3 1 in
       let r4 := is_allowed r3.2 t4 x 3 1 in
       let r5 := is_allowed r4.2 t5 x 3 1 in
       r1.1 = true ∧ r2.1 = true ∧ r3.1 = true ∧ r4.1 = false
       ∧ r5.1 = true
       ∧ (is_allowed r4.2 ty y my wy).1 = (is_allowed s0 ty y my wy).1).
Proof.
  split.
  - intros self now u m w kept. split; [|split].
    + intros t. apply recent_elem.
    + apply is_allowed_unfold.
    + intros v Hne. by apply is_allowed_other.
  - intros s0 x y t1 t2 t3 t4 t5 ty my wy Hxy H0 H12 H23 H34 H41 H45 H15
      r1 r2 r3 r4 r5.
    destruct (accept_step s0 t1 x 3 1 [] H0) as [E1 W1]; [by constructor|cbn; lia|].
    fold r1 in E1, W1.
    destruct (accept_step r1.2 t2 x 3 1 _ W1) as [E2 W2];
      [repeat constructor; lia|cbn; lia|].
    fold r2 in E2, W2.
    destruct (accept_step r2.2 t3 x 3 1 _ W2) as [E3 W3];
      [repeat constructor; lia|cbn; lia|].
    fold r3 in E3, W3.
    destruct (reject_step r3.2 t4 x 3 1 _ W3) as [E4 W4];
      [repeat constructor; lia|cbn; lia|].
    fold r4 in E4, W4.
    repeat (split; [done|]). split.
    + unfold r5. rewrite is_allowed_result, W4. cbn [app].
      rewrite recent_drop by lia.
      pose proof (recent_length (t5 - 1 * 60) [t2; t3]) as Hlen.
      change (length [t2; t3]) with 2%nat in Hlen.
      apply bool_decide_eq_true_2. lia.
    + apply is_allowed_local.
      unfold r4, r3, r2, r1. by rewrite !is_allowed_other.
Qed.

(** The scenario of C1 at the times 0, 10, 20, 30 and 60, users 1 and 2. *)
Lemma C1_is_allowed_sliding_window_witness :
  let r1 := is_allowed init 0 1 3 1 in
  let r2 := is_allowed r1.2 10 1 3 1 in
  let r3 := is_allowed r2.2 20 1 3 1 in
  let r4 := is_allowed r3.2 30 1 3 1 in
  let r5 := is_allowed r4.2 60 1 3 1 in
  r1.1 = true ∧ r2.1 = true ∧ r3.1 = true ∧ r4.1 = false
  ∧ r5.1 = true
  ∧ (is_allowed r4.2 35 2 3 1).1 = (is_allowed init 35 2 3 1).1.
Proof.
  apply (proj2 C1_is_allowed_sliding_window init 1 2 0 10 20 30 60 35 3 1);
    [done|reflexivity|lia..].
Defined.

(** C1 as worded fails at the boundary: with one request recorded at time 0,
    [max_requests = 1] and a window of one minute, the call at time 60 is
    admitted by the code, which has purged the timestamp 0, while a purge of
    the timestamps older than [60 - 60] would keep it and reject the call. *)
Lemma C1_boundary_counterexample :
  let self := {| requests := {[ 7 := [0] ]} |} in
  (is_allowed self 60 7 1 1).1 = true
  ∧ (is_allowed_as_worded self 60 7 1 60).1 = false
  ∧ window_of (is_allowed self 60 7 1 1).2 7 = [60]
  ∧ window_of (is_allowed_as_worded self 60 7 1 60).2 7 = [0].
Proof. vm_compute. done. Qed.

(** C3 (as amended): [get_generation_stats] leaves the stored rate-limiter
    state exactly as it was (there is no purge of the stored entries and no
    new timestamp), and reports the number of the user's timestamps newer
    than [now - 3600], the maximum 10, and what is left of 10, never below
    0. *)
Theorem C3_stats_read_only :
  ∀ rate_limiter now user_id,
    let used :=
      Z.of_nat (length (recent (now - 3600) (window_of rate_limiter user_id))) in
    (get_generation_stats rate_limiter now user_id).2 = rate_limiter
    ∧ (get_generation_stats rate_limiter now user_id).1 =
        {| requests_in_last_hour := used;
           max_requests_per_hour := 10;
           remaining_requests := Z.max 0 (10 - used) |}
    ∧ (∀ t, t ∈ recent (now - 3600) (window_of rate_limiter user_id)
            ↔ now - 3600 < t ∧ t ∈ window_of rate_limiter user_id).
Proof.
  intros rate_limiter now user_id used. split; [done|]. split; [done|].
  intros t. apply recent_elem.
Qed.

(** C3 as worded fails: a timestamp recorded at time 0 is stale at time
    10000, and after [get_generation_stats] it is still stored. *)
Lemma C3_no_purge_counterexample :
  let rate_limiter := {| requests := {[ 7 := [0] ]} |} in
  window_of (get_generation_stats rate_limiter 10000 7).2 7 = [0]
  ∧ window_of (get_generation_stats rate_limiter 10000 7).2 7
    ≠ recent (10000 - 3600) (window_of rate_limiter 7).
Proof. vm_compute. split; [done|discriminate]. Qed.

(** C10: for a fixed [max_requests = m ≥ 0], a call of [is_allowed], for any
    user, time and window, keeps every stored list at length at most [m];
    so after any run of calls from the empty state no user has more than [m]
    timestamps. *)
Theorem C10_window_length_bounded :
  ∀ m, 0 ≤ m →
    (∀ self now u w v,
       Z.of_nat (length (window_of self v)) ≤ m →
       Z.of_nat (length (window_of (is_allowed self now u m w).2 v)) ≤ m)
    ∧ (∀ calls v, Z.of_nat (length (window_of (run m calls init) v)) ≤ m).
Proof.
  intros m Hm. split.
  - intros self now u w v Hv. by apply is_allowed_bound.
  - intros calls v. apply run_bound; [done|].
    unfold window_of, init. cbn [requests]. rewrite lookup_empty. cbn. lia.
Qed.

Lemma C10_window_length_bounded_witness :
  0 ≤ 2
  ∧ Z.of_nat (length (window_of
      (run 2 [ {| call_time := 5; call_user := 1; call_window := 1 |};
               {| call_time := 6; call_user := 1; call_window := 1 |};
               {| call_time := 7; call_user := 1; call_window := 1 |} ]
         init) 1)) ≤ 2.
Proof.
  split; [lia|].
  apply (proj2 (C10_window_length_bounded 2 ltac:(lia))).
Defined.

End RateLimitFacts.


(** ** Properties of the generation gateway *)

Module GatewayFacts.
Import RateLimit Gateway RateLimitFacts.

Lemma generate_rejected model world now request user_id :
  (check world now user_id).1 = false →
  generate_linkedin_post model world now request user_id =
    (rate_limited,
     {| rate_limiter := (check world now user_id).2;
        provider_calls := provider_calls world |}).
Proof.
  unfold generate_linkedin_post, check.
  destruct (is_allowed _ _ _ _ _) as [allowed limiter]. cbn.
  by intros ->.
Qed.

Lemma generate_allowed model world now request user_id :
  (check world now user_id).1 = true →
  generate_linkedin_post model world now request user_id =
    (outcome_of request (model (base_prompt request)),
     {| rate_limiter := (check world now user_id).2;
        provider_calls := provider_calls world ++ [base_prompt request] |}).
Proof.
  unfold generate_linkedin_post, check, outcome_of.
  destruct (is_allowed _ _ _ _ _) as [allowed limiter]. cbn.
  intros ->. cbn. by destruct (model (base_prompt request)).
Qed.

(** C2: [generate_linkedin_post] starts with the rate limiter; when the
    limiter rejects, the result is the [rate_limit] failure, no prompt is
    sent to the provider (the list of provider calls is as before the run),
    and the run is the same whatever the provider and the request are. *)
Theorem C2_rate_limited_before_provider :
  ∀ model world now request user_id,
    (check world now user_id).1 = false →
    (generate_linkedin_post model world now request user_id).1 = rate_limited
    ∧ provider_calls (generate_linkedin_post model world now request user_id).2
      = provider_calls world
    ∧ rate_limiter (generate_linkedin_post model world now request user_id).2
      = (check world now user_id).2
    ∧ (∀ model' request',
         generate_linkedin_post model' world now request' user_id
         = generate_linkedin_post model world now request user_id).
Proof.
  intros model world now request user_id Hrej.
  rewrite (generate_rejected _ _ _ _ _ Hrej). repeat split.
  intros model' request'. by rewrite (generate_rejected _ _ _ _ _ Hrej).
Qed.

(** C4: in a run admitted by the limiter the state of the limiter after the
    run is the one the admission left, whatever the provider does: the time
    of the run is the last timestamp of the user's list. So it is after an
    empty text ([empty_response]) and after a quota error
    ([quota_exceeded]). *)
Theorem C4_admission_not_reverted :
  ∀ model world now request user_id,
    (check world now user_id).1 = true →
    let after := generate_linkedin_post model world now request user_id in
    rate_limiter after.2 = (check world now user_id).2
    ∧ window_of (rate_limiter after.2) user_id
      = recent (now - 60 * 60) (window_of (rate_limiter world) user_id) ++ [now]
    ∧ now ∈ window_of (rate_limiter after.2) user_id
    ∧ (model (base_prompt request) = inr (Some {| text := inr (Some ""%string) |}) →
       after.1 = empty_response)
    ∧ (model (base_prompt request) = inl ResourceExhausted →
       after.1 = quota_exceeded).
Proof.
  intros model world now request user_id Hadm after. unfold after.
  rewrite (generate_allowed _ _ _ _ _ Hadm). cbn [fst snd rate_limiter].
  assert (Hw : window_of (check world now user_id).2 user_id
               = recent (now - 60 * 60)
                   (window_of (rate_limiter world) user_id) ++ [now]).
  { unfold check in *. by rewrite (is_allowed_accept _ _ _ _ _ Hadm). }
  split; [done|]. split; [done|]. split.
  { rewrite Hw. apply elem_of_app. right. by apply list_elem_of_singleton. }
  split; by intros ->.
Qed.

Lemma C2_rate_limited_before_provider_witness :
  (check exhausted 20 1).1 = false
  ∧ (generate_linkedin_post (answering "A post about work and life.")
       exhausted 20 a_request 1).1 = rate_limited
  ∧ provider_calls
      (generate_linkedin_post (answering "A post about work and life.")
         exhausted 20 a_request 1).2 = [].
Proof.
  assert (H : (check exhausted 20 1).1 = false) by (vm_compute; reflexivity).
  split; [exact H|].
  destruct (C2_rate_limited_before_provider
              (answering "A post about work and life.") exhausted 20 a_request 1 H)
    as (H1 & H2 & _).
  split; [exact H1|exact H2].
Defined.

Lemma C4_admission_not_reverted_witness :
  (check fresh 20 1).1 = true
  ∧ window_of
      (rate_limiter (generate_linkedin_post (raising ResourceExhausted)
                       fresh 20 a_request 1).2) 1
    = recent (20 - 60 * 60) (window_of (rate_limiter fresh) 1) ++ [20]
  ∧ (generate_linkedin_post (raising ResourceExhausted) fresh 20 a_request 1).1
    = quota_exceeded.
Proof.
  assert (H : (check fresh 20 1).1 = true) by (vm_compute; reflexivity).
  split; [exact H|].
  destruct (C4_admission_not_reverted (raising ResourceExhausted)
              fresh 20 a_request 1 H) as (_ & H2 & _ & _ & H5).
  split; [exact H2|]. apply H5. reflexivity.
Defined.

(** C5 (as amended): in an admitted run the provider's answer gives exactly
    one result. A raised quota error gives [quota_exceeded], another provider
    error [api_error], any other exception [unexpected_error]; no response, no
    text or an empty text gives [empty_response]; a text that, once the
    whitespace at its two ends is stripped, has fewer than 10 characters
    gives [content_too_short]; any other text gives success with the
    stripped text and, as metadata, the request's mood, length and language
    and the number of characters of the stripped text. *)
Theorem C5_outcome_mapping :
  ∀ model world now request user_id,
    (check world now user_id).1 = true →
    let answer := model (base_prompt request) in
    let result := (generate_linkedin_post model world now request user_id).1 in
    (answer = inl ResourceExhausted → result = quota_exceeded)
    ∧ (answer = inl GoogleAPIError → result = api_error)
    ∧ (answer = inl OtherException → result = unexpected_error)
    ∧ (answer = inr None → result = empty_response)
    ∧ (∀ r, answer = inr (Some r) →
         text r = inr None ∨ text r = inr (Some ""%string) →
         result = empty_response)
    ∧ (∀ r e, answer = inr (Some r) → text r = inl e →
         result = handle_raised e)
    ∧ (∀ r t, answer = inr (Some r) → text r = inr (Some t) → t ≠ ""%string →
         PyStr.len (PyStr.strip t) < 10 →
         result = content_too_short)
    ∧ (∀ r t, answer = inr (Some r) → text r = inr (Some t) → t ≠ ""%string →
         10 ≤ PyStr.len (PyStr.strip t) →
         result = Success (PyStr.strip t)
                    {| meta_mood := mood request;
                       meta_length := length request;
                       meta_language := language request;
                       character_count := PyStr.len (PyStr.strip t) |}).
Proof.
  intros model world now request user_id Hadm answer result.
  unfold result. rewrite (generate_allowed _ _ _ _ _ Hadm). cbn [fst].
  fold answer. unfold outcome_of, handle_response.
  repeat split.
  - by intros ->.
  - by intros ->.
  - by intros ->.
  - by intros ->.
  - intros r -> [Ht|Ht]; by rewrite Ht.
  - intros r e -> Ht. by rewrite Ht.
  - intros r t -> Ht Hne Hlen. rewrite Ht.
    apply String.eqb_neq in Hne. rewrite Hne.
    by rewrite (proj2 (Z.ltb_lt _ _) Hlen).
  - intros r t -> Ht Hne Hlen. rewrite Ht.
    apply String.eqb_neq in Hne. rewrite Hne.
    by rewrite (proj2 (Z.ltb_ge _ _) Hlen).
Qed.

Lemma C5_outcome_mapping_witness :
  (check fresh 20 1).1 = true
  ∧ (generate_linkedin_post (answering "  Work hard, rest well.  ")
       fresh 20 a_request 1).1
    = Success "Work hard, rest well."
        {| meta_mood := casual; meta_length := short;
           meta_language := english; character_count := 21 |}.
Proof.
  assert (H : (check fresh 20 1).1 = true) by (vm_compute; reflexivity).
  split; [exact H|].
  destruct (C5_outcome_mapping (answering "  Work hard, rest well.  ")
              fresh 20 a_request 1 H) as (_ & _ & _ & _ & _ & _ & _ & H8).
  apply (H8 {| text := inr (Some "  Work hard, rest well.  "%string) |}
            "  Work hard, rest well.  "%string).
  - reflexivity.
  - reflexivity.
  - discriminate.
  - vm_compute. discriminate.
Defined.

(** C5 as worded fails: a provider text of 10 characters, two letters and
    eight spaces, is not shorter than 10 characters, and the code answers
    [content_too_short], because it measures the text after stripping. *)
Lemma C5_padded_text_counterexample :
  let t := "hi        "%string in
  PyStr.len t = 10
  ∧ (generate_linkedin_post (answering t) fresh 20 a_request 1).1
    = content_too_short
  ∧ outcome_as_worded a_request t
    = Success t {| meta_mood := casual; meta_length := short;
                   meta_language := english; character_count := 10 |}
  ∧ (generate_linkedin_post (answering t) fresh 20 a_request 1).1
    ≠ outcome_as_worded a_request t.
Proof. vm_compute. repeat split; discriminate. Qed.

End GatewayFacts.

(** ** Properties of token validation, login and signup *)

Module AuthFacts.
Import Auth.

Section Tokens.

Variable sign : string → string → gmap string JVal → string.
Variable settings : Settings.

Local Abbreviation key := (jwt_secret_key settings).
Local Abbreviation algorithm := (jwt_algorithm settings).
Local Abbreviation validate := (get_current_user sign settings).
Local Abbreviation issue := (create_access_token sign settings).
Local Abbreviation encode := (jwt_encode sign).
Local Abbreviation decode := (jwt_decode sign).

(** *** The claim checks *)

Lemma validate_iat_pass payload now :
  validate_iat payload now = None ↔ time_claim payload "iat" (λ iat, iat ≤ now).
Proof.
  unfold validate_iat, time_claim.
  destruct (get payload "iat") as [|s|n] eqn:E.
  - split; [by left|done].
  - destruct (int_of (JStr s)) as [t|] eqn:Ei.
    + destruct (now <? t) eqn:El.
      * apply Z.ltb_lt in El. split; [done|].
        intros [?|(t' & [= <-] & ?)]; [done|lia].
      * apply Z.ltb_ge in El. split; [|done]. intros _. right. by exists t.
    + split; [done|]. by intros [?|(t & ? & _)].
  - cbn. destruct (now <? n) eqn:El.
    + apply Z.ltb_lt in El. split; [done|].
      intros [?|(t' & [= <-] & ?)]; [done|lia].
    + apply Z.ltb_ge in El. split; [|done]. intros _. right. by exists n.
Qed.

Lemma validate_nbf_pass payload now :
  validate_nbf payload now = None ↔ time_claim payload "nbf" (λ nbf, nbf ≤ now).
Proof.
  unfold validate_nbf, time_claim.
  destruct (get payload "nbf") as [|s|n] eqn:E.
  - split; [by left|done].
  - destruct (int_of (JStr s)) as [t|] eqn:Ei.
    + destruct (now <? t) eqn:El.
      * apply Z.ltb_lt in El. split; [done|].
        intros [?|(t' & [= <-] & ?)]; [done|lia].
      * apply Z.ltb_ge in El. split; [|done]. intros _. right. by exists t.
    + split; [done|]. by intros [?|(t & ? & _)].
  - cbn. destruct (now <? n) eqn:El.
    + apply Z.ltb_lt in El. split; [done|].
      intros [?|(t' & [= <-] & ?)]; [done|lia].
    + apply Z.ltb_ge in El. split; [|done]. intros _. right. by exists n.
Qed.

Lemma validate_exp_pass payload now :
  validate_exp payload now = None ↔ unexpired payload now.
Proof.
  unfold validate_exp, unexpired, time_claim.
  destruct (get payload "exp") as [|s|n] eqn:E.
  - split; [by left|done].
  - destruct (int_of (JStr s)) as [t|] eqn:Ei.
    + destruct (t <=? now) eqn:El.
      * apply Z.leb_le in El. split; [done|].
        intros [?|(t' & [= <-] & ?)]; [done|lia].
      * apply Z.leb_gt in El. split; [|done]. intros _. right. by exists t.
    + split; [done|]. by intros [?|(t & ? & _)].
  - cbn. destruct (n <=? now) eqn:El.
    + apply Z.leb_le in El. split; [done|].
      intros [?|(t' & [= <-] & ?)]; [done|lia].
    + apply Z.leb_gt in El. split; [|done]. intros _. right. by exists n.
Qed.

Lemma validate_exp_expired payload now :
  validate_exp payload now = Some ExpiredSignatureError ↔
  ∃ exp, int_of (get payload "exp") = Some exp ∧ exp ≤ now.
Proof.
  unfold validate_exp.
  destruct (get payload "exp") as [|s|n] eqn:E.
  - split; [done|]. by intros (t & ? & _).
  - destruct (int_of (JStr s)) as [t|] eqn:Ei.
    + destruct (t <=? now) eqn:El.
      * apply Z.leb_le in El. split; [|done]. intros _. by exists t.
      * apply Z.leb_gt in El. split; [done|]. intros (t' & [= <-] & ?). lia.
    + split; [done|]. by intros (t & ? & _).
  - cbn. destruct (n <=? now) eqn:El.
    + apply Z.leb_le in El. split; [|done]. intros _. by exists n.
    + apply Z.leb_gt in El. split; [done|]. intros (t' & [= <-] & ?). lia.
Qed.

Lemma validate_iat_not_expired payload now :
  validate_iat payload now ≠ Some ExpiredSignatureError.
Proof.
  unfold validate_iat.
  destruct (get payload "iat") as [|s|n]; [done| |].
  - destruct (int_of (JStr s)) as [t|]; [|done]. by destruct (now <? t).
  - cbn. by destruct (now <? n).
Qed.

Lemma validate_nbf_not_expired payload now :
  validate_nbf payload now ≠ Some ExpiredSignatureError.
Proof.
  unfold validate_nbf.
  destruct (get payload "nbf") as [|s|n]; [done| |].
  - destruct (int_of (JStr s)) as [t|]; [|done]. by destruct (now <? t).
  - cbn. by destruct (now <? n).
Qed.

Lemma validate_exp_only_expired payload now e :
  validate_exp payload now = Some e →
  e = ExpiredSignatureError ∨ e = DecodeError.
Proof.
  unfold validate_exp.
  destruct (get payload "exp") as [|s|n]; [done| |].
  - destruct (int_of (JStr s)) as [t|]; [|intros [= <-]; by right].
    destruct (t <=? now); [intros [= <-]; by left|done].
  - cbn. destruct (n <=? now); [intros [= <-]; by left|done].
Qed.

Lemma validate_rest_pass payload :
  (validate_aud payload = None ∧ validate_sub payload = None
   ∧ validate_jti payload = None) ↔ plain_claims payload.
Proof.
  unfold validate_aud, validate_sub, validate_jti, plain_claims.
  destruct (truthy (get payload "aud"));
    destruct (get payload "sub") as [|s|n];
    destruct (get payload "jti") as [|s'|n']; cbn; intuition congruence.
Qed.

Lemma validate_claims_pass payload now :
  validate_claims payload now = None ↔
  not_early payload now ∧ unexpired payload now ∧ plain_claims payload.
Proof.
  unfold not_early.
  rewrite <- validate_iat_pass, <- validate_nbf_pass, <- validate_exp_pass,
    <- validate_rest_pass.
  unfold validate_claims.
  destruct (validate_iat payload now), (validate_nbf payload now),
    (validate_exp payload now), (validate_aud payload),
    (validate_sub payload), (validate_jti payload); intuition congruence.
Qed.

Lemma validate_claims_expired payload now :
  validate_claims payload now = Some ExpiredSignatureError ↔
  not_early payload now
  ∧ ∃ exp, int_of (get payload "exp") = Some exp ∧ exp ≤ now.
Proof.
  unfold not_early.
  rewrite <- validate_iat_pass, <- validate_nbf_pass, <- validate_exp_expired.
  pose proof (validate_iat_not_expired payload now) as Hi.
  pose proof (validate_nbf_not_expired payload now) as Hn.
  unfold validate_claims.
  destruct (validate_iat payload now) as [ei|]; [intuition congruence|].
  destruct (validate_nbf payload now) as [en|]; [intuition congruence|].
  destruct (validate_exp payload now) as [ee|] eqn:Ee.
  - split; [intros [= ->]; by repeat split|by intros [_ ?]].
  - split; [|by intros [_ ?]].
    unfold validate_aud, validate_sub, validate_jti.
    destruct (truthy _); [done|].
    destruct (get payload "sub") as [|?|?]; cbn; try done;
      destruct (get payload "jti") as [|?|?]; cbn; done.
Qed.

(** *** Decoding *)

Lemma decode_payload token now payload :
  decode token key algorithm now = inr payload ↔
  token = encode payload key algorithm
  ∧ not_early payload now ∧ unexpired payload now ∧ plain_claims payload.
Proof.
  rewrite <- validate_claims_pass. unfold jwt_decode, jwt_encode. split.
  - destruct token as [raw|alg p sig]; [done|].
    destruct (String.eqb alg algorithm) eqn:Ea; [|done].
    apply String.eqb_eq in Ea. subst alg.
    destruct (String.eqb sig (sign algorithm key p)) eqn:Es; [|done].
    apply String.eqb_eq in Es. subst sig. cbn.
    destruct (validate_claims p now) eqn:Ec; [done|].
    by intros [= ->].
  - intros [-> Hc]. rewrite !String.eqb_refl. cbn. by rewrite Hc.
Qed.

Lemma decode_expired token now :
  decode token key algorithm now = inl ExpiredSignatureError ↔
  ∃ payload exp,
    token = encode payload key algorithm
    ∧ not_early payload now
    ∧ int_of (get payload "exp") = Some exp ∧ exp ≤ now.
Proof.
  unfold jwt_decode, jwt_encode. split.
  - destruct token as [raw|alg p sig]; [done|].
    destruct (String.eqb alg algorithm) eqn:Ea; [|done].
    apply String.eqb_eq in Ea. subst alg.
    destruct (String.eqb sig (sign algorithm key p)) eqn:Es; [|done].
    apply String.eqb_eq in Es. subst sig. cbn.
    destruct (validate_claims p now) as [e|] eqn:Ec; [|done].
    intros [= ->]. apply validate_claims_expired in Ec as (He & exp & Hx & Hle).
    by exists p, exp.
  - intros (payload & exp & -> & He & Hx & Hle).
    rewrite !String.eqb_refl. cbn.
    by rewrite (proj2 (validate_claims_expired payload now)
                  (conj He (ex_intro _ exp (conj Hx Hle)))).
Qed.

Lemma decode_tampered alg payload sig now :
  sig ≠ sign alg key payload →
  decode (Signed alg payload sig) key algorithm now = inl InvalidAlgorithmError
  ∨ decode (Signed alg payload sig) key algorithm now = inl InvalidSignatureError.
Proof.
  intros Hne. unfold jwt_decode.
  destruct (String.eqb alg algorithm); [|by left].
  apply String.eqb_neq in Hne. rewrite Hne. by right.
Qed.

(** *** Issuing *)

Lemma issue_in_range data issued :
  expiry_in_range settings issued →
  ∃ payload,
    issue data issued = Some (encode payload key algorithm)
    ∧ get payload "exp"
      = JInt (issued + access_token_expire_minutes settings * 60)
    ∧ get payload "iat" = JInt issued
    ∧ get payload "type" = JStr "access"
    ∧ (∀ k, k ≠ "exp"%string → k ≠ "iat"%string → k ≠ "type"%string →
            get payload k = get data k).
Proof.
  intros [Hlo Hhi]. unfold create_access_token.
  rewrite (proj2 (Z.ltb_ge _ _) Hlo), (proj2 (Z.ltb_ge _ _) Hhi). cbn [orb].
  eexists. split; [reflexivity|]. unfold get. split; [|split; [|split]].
  - by rewrite lookup_insert_ne, lookup_insert_ne, lookup_insert_eq.
  - by rewrite lookup_insert_ne, lookup_insert_eq.
  - by rewrite lookup_insert_eq.
  - intros k H1 H2 H3. by rewrite !lookup_insert_ne.
Qed.

Lemma issue_out_of_range data issued :
  ¬ expiry_in_range settings issued → issue data issued = None.
Proof.
  unfold expiry_in_range, create_access_token. intros Hout.
  destruct (_ <? datetime_min) eqn:E1; [done|].
  destruct (datetime_max <? _) eqn:E2; [done|].
  apply Z.ltb_ge in E1, E2. lia.
Qed.

Lemma issue_some data issued token :
  issue data issued = Some token → expiry_in_range settings issued.
Proof.
  intros H. destruct (decide (expiry_in_range settings issued)) as [|Hn];
    [done|]. by rewrite (issue_out_of_range _ _ Hn) in H.
Qed.

(** *** Validation *)

Lemma validate_accepts token now cu :
  validate token now = inr cu ↔
  ∃ payload,
    token = encode payload key algorithm
    ∧ not_early payload now ∧ unexpired payload now ∧ plain_claims payload
    ∧ get payload "type" = JStr "access"
    ∧ get payload "sub" = cu_username cu ∧ cu_username cu ≠ JNull
    ∧ get payload "user_id" = cu_user_id cu ∧ cu_user_id cu ≠ JNull.
Proof.
  unfold get_current_user. split.
  - destruct (decode token key algorithm now) as [e|payload] eqn:Ed.
    { by destruct e. }
    apply decode_payload in Ed as (-> & He & Hx & Hp).
    repeat case_bool_decide; cbn; try done.
    intros [= <-]. cbn. by exists payload.
  - intros (payload & -> & He & Hx & Hp & Ht & Hs & Hsn & Hu & Hun).
    rewrite (proj2 (decode_payload _ _ _) (conj eq_refl (conj He (conj Hx Hp)))).
    rewrite Ht, Hs, Hu.
    rewrite !bool_decide_eq_false_2 by done.
    rewrite bool_decide_eq_true_2 by done. cbn. by destruct cu.
Qed.

Lemma validate_expired token now :
  validate token now = inl expired_exception ↔
  ∃ payload exp,
    token = encode payload key algorithm
    ∧ not_early payload now
    ∧ int_of (get payload "exp") = Some exp ∧ exp ≤ now.
Proof.
  rewrite <- decode_expired. unfold get_current_user.
  destruct (decode token key algorithm now) as [[]|payload]; try done.
  destruct (_ || _); done.
Qed.


End Tokens.

Section Credentials.

Variable pwd_hash : string → string.
Variable pwd_verify : string → string → option bool.
Variable sign : string → string → gmap string JVal → string.
Variable settings : Settings.

Local Abbreviation login := (Auth.login pwd_verify sign settings).
Local Abbreviation signup := (Auth.signup pwd_hash).
Local Abbreviation create_user := (Auth.create_user pwd_hash).

(** *** The validators *)

Lemma validate_username_ok v v' :
  validate_username v = inr v' ↔
  v' = PyStr.lower v ∧ 3 ≤ PyStr.len v ≤ 50
  ∧ username_pattern_matches v = true.
Proof.
  unfold validate_username.
  destruct (String.eqb v "") eqn:E0.
  { apply String.eqb_eq in E0. subst v. cbn. split; [done|].
    intros (_ & H & _). change (PyStr.len "") with 0 in H. lia. }
  cbn [orb].
  destruct (PyStr.len v <? 3) eqn:E3; [split; [done|lia]|].
  destruct (50 <? PyStr.len v) eqn:E50; [split; [done|lia]|].
  destruct (username_pattern_matches v); cbn [negb].
  - split; [intros [= <-]; repeat split; lia|by intros (-> & _)].
  - split; [done|by intros (_ & _ & ?)].
Qed.

Lemma validate_password_ok v v' :
  validate_password v = inr v' ↔
  v' = v ∧ 8 ≤ PyStr.len v ≤ 128
  ∧ PyStr.search_class PyStr.is_upper v = true
  ∧ PyStr.search_class PyStr.is_lower v = true
  ∧ PyStr.search_class PyStr.is_digit v = true.
Proof.
  unfold validate_password.
  destruct (String.eqb v "") eqn:E0.
  { apply String.eqb_eq in E0. subst v. cbn. split; [done|].
    intros (_ & H & _). change (PyStr.len "") with 0 in H. lia. }
  cbn [orb].
  destruct (PyStr.len v <? 8) eqn:E8; [split; [done|lia]|].
  destruct (128 <? PyStr.len v) eqn:E128; [split; [done|lia]|].
  destruct (PyStr.search_class PyStr.is_upper v); cbn [negb];
    [|split; [done|by intros (_ & _ & ? & _)]].
  destruct (PyStr.search_class PyStr.is_lower v); cbn [negb];
    [|split; [done|by intros (_ & _ & _ & ? & _)]].
  destruct (PyStr.search_class PyStr.is_digit v); cbn [negb];
    [|split; [done|by intros (_ & _ & _ & _ & ?)]].
  split; [intros [= <-]; repeat split; lia|by intros (-> & _)].
Qed.

Lemma User_new_ok name pw user :
  User_new name pw = inr user ↔
  validate_username name = inr (username user)
  ∧ validate_password pw = inr (password user).
Proof.
  unfold User_new.
  destruct (validate_username name) as [eu|u], (validate_password pw) as [ep|p];
    split; try done; try (by intros [? ?]).
  - intros [= <-]. done.
  - intros [[= ->] [= ->]]. by destruct user.
Qed.

Lemma User_new_fields name pw user :
  User_new name pw = inr user →
  username user = PyStr.lower name ∧ password user = pw.
Proof.
  intros [Hu Hp]%User_new_ok.
  apply validate_username_ok in Hu as [-> _].
  by apply validate_password_ok in Hp as [-> _].
Qed.

(** A request whose username or password is refused stops at the model:
    the handler is not called and the connection is as it was. *)
Lemma create_user_invalid name pw db now errors :
  User_new name pw = inl errors →
  create_user name pw db now = (ValidationError errors, db).
Proof. unfold Auth.create_user. by intros ->. Qed.

Lemma code_line_feed c : PyStr.code c = 10 → c = Ascii.ascii_of_N 10.
Proof.
  intros Hc. rewrite <- (Ascii.ascii_N_embedding c).
  unfold PyStr.code in Hc. f_equal. lia.
Qed.

(** The pattern accepts the words over the class, and also such a word
    followed by one line feed. *)
Lemma rest_matches_spec s :
  rest_matches s = true ↔
  all_word_chars s = true
  ∨ ∃ w, s = (w +:+ PyStr.LF)%string ∧ all_word_chars w = true.
Proof.
  induction s as [|c rest IH]; cbn.
  - split; [by left|done].
  - rewrite orb_true_iff, !andb_true_iff, IH. split.
    + intros [[Hc [Hr|(w & -> & Hw)]]|[Hc Hr]].
      * by left.
      * right. exists (String c w). cbn. by rewrite Hc, Hw.
      * right. exists ""%string. apply String.eqb_eq in Hr. subst rest.
        apply Z.eqb_eq in Hc. split; [|done].
        by rewrite (code_line_feed c Hc).
    + intros [[Hc Hr]|(w & Hs & Hw)].
      * left. split; [done|by left].
      * unfold PyStr.LF in Hs.
        destruct w as [|c' w']; cbn [String.append] in Hs;
          injection Hs as ??; subst.
        -- right. split; reflexivity.
        -- cbn in Hw. apply andb_true_iff in Hw as [Hc Hw].
           left. split; [done|]. right. by exists w'.
Qed.

Lemma username_pattern_spec v :
  username_pattern_matches v = true ↔
  v ≠ ""%string
  ∧ (all_word_chars v = true
     ∨ ∃ w, v = (w +:+ PyStr.LF)%string ∧ w ≠ ""%string
            ∧ all_word_chars w = true).
Proof.
  destruct v as [|c rest]; cbn.
  { split; [done|by intros [? _]]. }
  rewrite andb_true_iff, rest_matches_spec. split.
  - intros [Hc [Hr|(w & -> & Hw)]]; (split; [done|]).
    + left. by rewrite Hc, Hr.
    + right. exists (String c w). cbn. by rewrite Hc, Hw.
  - intros [_ [[Hc Hr]%andb_true_iff|(w & Hs & Hne & Hw)]].
    + split; [done|by left].
    + destruct w as [|c' w']; [done|].
      cbn in Hs, Hw. injection Hs as ??; subst.
      apply andb_true_iff in Hw as [Hc Hw].
      split; [done|]. right. by exists w'.
Qed.

(** *** The table *)

Lemma fetchone_send name st db :
  fetchone_by_username name (send st db) = fetchone_by_username name db.
Proof. reflexivity. Qed.

Lemma fetchone_rows_of name db :
  fetchone_by_username name db = head (rows_of name db).
Proof. reflexivity. Qed.

Lemma fetchone_present name db row :
  row ∈ rows db → col_username row = name →
  is_Some (fetchone_by_username name db).
Proof.
  intros Hin Hname. rewrite fetchone_rows_of.
  assert (Hr : row ∈ rows_of name db).
  { unfold rows_of. by apply list_elem_of_filter. }
  destruct (rows_of name db); [by apply elem_of_nil in Hr|by eexists].
Qed.

Lemma rows_of_absent name db :
  (∀ row, row ∈ rows db → col_username row ≠ name) → rows_of name db = [].
Proof.
  intros Habs. unfold rows_of.
  induction (rows db) as [|r l IH]; [done|].
  rewrite filter_cons_False.
  - apply IH. intros row Hrow. apply Habs. by right.
  - apply Habs. by left.
Qed.

(** *** The handlers *)

Lemma signup_taken user db now row :
  available db = true →
  fetchone_by_username (username user) db = Some row →
  signup user db now
  = (inl username_exists, send (SelectUsername (username user)) db).
Proof.
  intros Hav Hrow. unfold Auth.signup. rewrite Hav. cbn [negb].
  by rewrite fetchone_send, Hrow.
Qed.

Lemma signup_free user db now :
  available db = true →
  fetchone_by_username (username user) db = None →
  signup user db now
  = (inr {| resp_username := username user;
            message := "User created successfully" |},
     send Commit
       (insert_user (username user) (pwd_hash (password user)) now
          (send (SelectUsername (username user)) db))).
Proof.
  intros Hav Hrow. unfold Auth.signup. rewrite Hav. cbn [negb].
  by rewrite fetchone_send, Hrow.
Qed.

Lemma login_unknown name pw db now :
  available db = true →
  fetchone_by_username (PyStr.lower name) db = None →
  (login name pw db now).1 = inl login_failure.
Proof.
  intros Hav Hrow. unfold Auth.login. rewrite Hav. cbn [negb].
  by rewrite fetchone_send, Hrow.
Qed.

Lemma login_wrong_password name pw db now row :
  available db = true →
  fetchone_by_username (PyStr.lower name) db = Some row →
  pwd_verify pw (col_password row) = Some false →
  (login name pw db now).1 = inl login_failure.
Proof.
  intros Hav Hrow Hpw. unfold Auth.login. rewrite Hav. cbn [negb].
  by rewrite fetchone_send, Hrow, Hpw.
Qed.

Lemma login_verify_raises name pw db now row :
  available db = true →
  fetchone_by_username (PyStr.lower name) db = Some row →
  pwd_verify pw (col_password row) = None →
  (login name pw db now).1 = inl login_error.
Proof.
  intros Hav Hrow Hpw. unfold Auth.login. rewrite Hav. cbn [negb].
  by rewrite fetchone_send, Hrow, Hpw.
Qed.

Lemma login_correct name pw db now row token :
  available db = true →
  fetchone_by_username (PyStr.lower name) db = Some row →
  pwd_verify pw (col_password row) = Some true →
  create_access_token sign settings (claims_of row) now = Some token →
  (login name pw db now).1
  = inr {| access_token := token; token_type := "bearer" |}.
Proof.
  intros Hav Hrow Hpw Htok. unfold Auth.login. rewrite Hav. cbn [negb].
  rewrite fetchone_send, Hrow, Hpw. unfold claims_of in Htok.
  by rewrite Htok.
Qed.

Lemma login_token_overflow name pw db now row :
  available db = true →
  fetchone_by_username (PyStr.lower name) db = Some row →
  pwd_verify pw (col_password row) = Some true →
  create_access_token sign settings (claims_of row) now = None →
  (login name pw db now).1 = inl login_error.
Proof.
  intros Hav Hrow Hpw Htok. unfold Auth.login. rewrite Hav. cbn [negb].
  rewrite fetchone_send, Hrow, Hpw. unfold claims_of in Htok.
  by rewrite Htok.
Qed.

(** A token made for a row is accepted, from its issue time until it
    expires, as the identity of the row. *)
Lemma login_token_validates row issued now token :
  create_access_token sign settings (claims_of row) issued = Some token →
  issued ≤ now →
  now < issued + access_token_expire_minutes settings * 60 →
  get_current_user sign settings token now
  = inr {| cu_username := JStr (col_username row);
           cu_user_id := JInt (col_id row) |}.
Proof.
  intros Htok Hle Hlt.
  destruct (issue_in_range sign settings (claims_of row) issued
              (issue_some sign settings _ _ _ Htok))
    as (payload & Hp & He & Hi & Ht & Hrest).
  rewrite Hp in Htok. injection Htok as <-.
  assert (Hget : ∀ k, k ≠ "exp"%string → k ≠ "iat"%string →
                      k ≠ "type"%string → k ≠ "user_id"%string →
                      k ≠ "sub"%string → get payload k = JNull).
  { intros k ? ? ? ? ?. rewrite Hrest by done. unfold get, claims_of.
    by rewrite lookup_insert_ne, lookup_singleton_ne. }
  assert (Hsub : get payload "sub" = JStr (col_username row)).
  { rewrite Hrest by done. unfold get, claims_of.
    by rewrite lookup_insert_ne, lookup_singleton_eq. }
  assert (Huid : get payload "user_id" = JInt (col_id row)).
  { rewrite Hrest by done. unfold get, claims_of.
    by rewrite lookup_insert_eq. }
  apply validate_accepts. exists payload. split; [done|].
  unfold not_early, unexpired, plain_claims, time_claim.
  rewrite He, Hi, Ht, Hsub, Huid, !Hget by done. cbn.
  repeat split; try done; eauto.
Qed.



End Credentials.

(** C8 fails on the code: the username ["abc"] followed by a line feed has
    a character outside [[a-zA-Z0-9_]], and yet it passes the validator,
    because the [$] of the pattern also holds before a final line feed; the
    signup goes on and stores a row under that username. *)
Theorem C8_trailing_line_feed_accepted :
  ∀ pwd_hash,
    let name := ("abc" +:+ PyStr.LF)%string in
    all_word_chars name = false
    ∧ PyStr.len name = 4
    ∧ User_new name "Passw0rd"
      = inr {| username := name; password := "Passw0rd" |}
    ∧ (create_user pwd_hash name "Passw0rd" empty_db 0).1
      = Created {| resp_username := name;
                   message := "User created successfully" |}
    ∧ rows (create_user pwd_hash name "Passw0rd" empty_db 0).2
      = [ {| col_id := 1; col_username := name;
             col_password := pwd_hash "Passw0rd"; col_created_at := 0 |} ].
Proof. intros pwd_hash name. repeat split. Qed.






End AuthFacts.

(** ** More on the rate limiter *)

Module RateLimitMore.
Import RateLimit RateLimitFacts Invariants.

Lemma recent_Forall ws l : Forall (λ t, ws < t) (recent ws l).
Proof. apply Forall_forall. intros t Ht. by apply recent_elem in Ht as [? _]. Qed.

Lemma recent_idem ws l : recent ws (recent ws l) = recent ws l.
Proof. apply recent_all, recent_Forall. Qed.

Lemma recent_none ws l : Forall (λ t, t ≤ ws) l → recent ws l = [].
Proof.
  induction 1 as [|t l Ht _ IH]; [done|]. by rewrite recent_drop.
Qed.

Lemma recent_sorted ws l :
  StronglySorted Z.le l → StronglySorted Z.le (recent ws l).
Proof.
  induction 1 as [|t l Hl IH Ht]; [constructor|].
  unfold recent in *. destruct (decide (ws < t)).
  - rewrite filter_cons_True by done. constructor; [done|].
    apply Forall_forall. intros x [_ Hx]%list_elem_of_filter.
    by apply (proj1 (Forall_forall _ _) Ht).
  - by rewrite filter_cons_False.
Qed.

Lemma snoc_sorted l now :
  StronglySorted Z.le l → Forall (λ t, t ≤ now) l →
  StronglySorted Z.le (l ++ [now]).
Proof.
  induction 1 as [|t l Hl IH Ht]; intros Hall; cbn.
  - repeat constructor.
  - apply Forall_cons in Hall as [Htn Hall]. constructor; [by apply IH|].
    apply Forall_app. split; [done|]. by constructor.
Qed.

Lemma ordered_until_step self now0 now u m w v :
  now0 ≤ now →
  ordered_until now0 (window_of self v) →
  ordered_until now (window_of (is_allowed self now u m w).2 v).
Proof.
  intros Hle [Hs Hb].
  assert (Hb' : Forall (λ t, t ≤ now) (window_of self v)).
  { eapply Forall_impl; [exact Hb|]. cbn. intros. lia. }
  destruct (decide (u = v)) as [<-|Hne].
  - rewrite is_allowed_window. cbn zeta.
    set (kept := recent (now - w * 60) (window_of self u)).
    assert (Hk : StronglySorted Z.le kept) by by apply recent_sorted.
    assert (Hkb : Forall (λ t, t ≤ now) kept).
    { apply Forall_forall. intros t [_ Ht]%recent_elem.
      by apply (proj1 (Forall_forall _ _) Hb'). }
    case_bool_decide; [|done]. split.
    + by apply snoc_sorted.
    + apply Forall_app. split; [done|]. constructor; [lia|constructor].
  - by rewrite is_allowed_other.
Qed.

Lemma ordered_until_run m calls : ∀ self start,
  monotone_from start calls →
  (∀ v, ordered_until start (window_of self v)) →
  ∀ v, StronglySorted Z.le (window_of (run m calls self) v).
Proof.
  induction calls as [|c rest IH]; intros self start Hmono Hinv v; cbn.
  - apply Hinv.
  - destruct Hmono as [Hle Hrest].
    apply (IH _ (call_time c) Hrest). intros v'.
    by apply (ordered_until_step _ start).
Qed.

(** X1: the statistics tell whether the next request would pass: at one
    clock reading, [remaining_requests] is positive exactly when
    [is_allowed], with its default limit and window, admits the user. *)
Theorem stats_predict_admission :
  ∀ rate_limiter now user_id,
    0 < remaining_requests (get_generation_stats rate_limiter now user_id).1
    ↔ (is_allowed rate_limiter now user_id
         default_max_requests default_window_minutes).1 = true.
Proof.
  intros rl now u. rewrite is_allowed_result, bool_decide_eq_true.
  unfold get_generation_stats, default_max_requests, default_window_minutes.
  cbn [fst remaining_requests]. fold (window_of rl u). lia.
Qed.

(** X2: on a limiter that has only been used through [is_allowed] with
    the limit 10, the statistics add up: the requests of the last hour are
    between 0 and 10, and with the remaining ones they make 10. *)
Theorem stats_add_up :
  ∀ calls now user_id,
    let st := (get_generation_stats (run 10 calls init) now user_id).1 in
    0 ≤ requests_in_last_hour st ≤ 10
    ∧ requests_in_last_hour st + remaining_requests st = 10.
Proof.
  intros calls now u st. unfold st, get_generation_stats.
  cbn [fst requests_in_last_hour remaining_requests].
  fold (window_of (run 10 calls init) u).
  assert (Hb : Z.of_nat (length (window_of (run 10 calls init) u)) ≤ 10).
  { apply run_bound; [lia|]. unfold window_of, init. cbn [requests].
    rewrite lookup_empty. cbn. lia. }
  pose proof (recent_length (now - 60 * 60) (window_of (run 10 calls init) u)).
  lia.
Qed.

(** X3: with a limit of zero or less no call is ever admitted, and the
    call only purges: the user's list is the kept part of the old one. *)
Theorem no_admission_without_quota :
  ∀ self now u m w,
    m ≤ 0 →
    (is_allowed self now u m w).1 = false
    ∧ window_of (is_allowed self now u m w).2 u
      = recent (now - w * 60) (window_of self u).
Proof.
  intros self now u m w Hm.
  assert (H : (is_allowed self now u m w).1 = false).
  { rewrite is_allowed_result. apply bool_decide_eq_false_2. lia. }
  split; [done|]. by apply is_allowed_reject.
Qed.

Lemma no_admission_without_quota_witness :
  (is_allowed init 100 1 0 60).1 = false
  ∧ window_of (is_allowed init 100 1 0 60).2 1
    = recent (100 - 60 * 60) (window_of init 1).
Proof. apply (no_admission_without_quota init 100 1 0 60). lia. Defined.

(** X4: after a call with a positive window, whatever its answer, every
    timestamp stored for the user is newer than [now - window]. *)
Theorem stored_timestamps_in_window :
  ∀ self now u m w t,
    0 < w →
    t ∈ window_of (is_allowed self now u m w).2 u →
    now - w * 60 < t.
Proof.
  intros self now u m w t Hw. rewrite is_allowed_window. cbn zeta.
  case_bool_decide.
  - intros [Ht|Ht%list_elem_of_singleton]%elem_of_app; [|lia].
    by apply recent_elem in Ht as [? _].
  - intros Ht. by apply recent_elem in Ht as [? _].
Qed.

Lemma stored_timestamps_in_window_witness :
  0 < 1
  ∧ 100 ∈ window_of (is_allowed init 100 1 3 1).2 1
  ∧ 100 - 1 * 60 < 100.
Proof.
  assert (Hin : 100 ∈ window_of (is_allowed init 100 1 3 1).2 1)
    by (vm_compute; by left).
  split; [lia|]. split; [exact Hin|].
  apply (stored_timestamps_in_window init 100 1 3 1 100); [lia|exact Hin].
Defined.

(** X5: a call adds the user to the keys of the dictionary, also when it
    rejects, and removes no key: entries are never deleted. *)
Theorem keys_only_grow :
  ∀ self now u m w,
    dom (requests (is_allowed self now u m w).2) = {[u]} ∪ dom (requests self).
Proof.
  intros self now u m w. rewrite is_allowed_unfold. cbn zeta.
  case_bool_decide; cbn [snd requests]; apply dom_insert_L.
Qed.

(** X6: when the clock does not go back between the calls, every stored
    list is in non-decreasing order, oldest first. *)
Theorem stored_timestamps_ordered :
  ∀ m calls start v,
    monotone_from start calls →
    StronglySorted Z.le (window_of (run m calls init) v).
Proof.
  intros m calls start v Hmono.
  apply (ordered_until_run m calls init start Hmono).
  intros v'. unfold window_of, init. cbn [requests]. rewrite lookup_empty.
  split; constructor.
Qed.

Lemma stored_timestamps_ordered_witness :
  StronglySorted Z.le
    (window_of
       (run 3 [ {| call_time := 5; call_user := 1; call_window := 1 |};
                {| call_time := 5; call_user := 1; call_window := 1 |};
                {| call_time := 9; call_user := 1; call_window := 1 |} ]
          init) 1).
Proof.
  apply (stored_timestamps_ordered 3 _ 0 1). cbn. lia.
Defined.

(** X7: once every stored timestamp of a user is a window old or older,
    a call with a positive limit is admitted and the user's list is that one
    call. *)
Theorem admitted_again_after_window :
  ∀ self now u m w,
    0 < m →
    Forall (λ t, t ≤ now - w * 60) (window_of self u) →
    (is_allowed self now u m w).1 = true
    ∧ window_of (is_allowed self now u m w).2 u = [now].
Proof.
  intros self now u m w Hm Hold.
  rewrite is_allowed_result, is_allowed_window. cbn zeta.
  rewrite (recent_none _ _ Hold). cbn.
  by rewrite bool_decide_eq_true_2 by lia.
Qed.

Lemma admitted_again_after_window_witness :
  let self := {| requests := {[ 1 := [10; 20; 30] ]} |} in
  (is_allowed self 90 1 3 1).1 = true
  ∧ window_of (is_allowed self 90 1 3 1).2 1 = [90].
Proof.
  apply (admitted_again_after_window _ 90 1 3 1); [lia|].
  vm_compute. repeat constructor; discriminate.
Defined.

End RateLimitMore.

(** ** Facts on the string operations *)

Module PyStrFacts.
Import PyStr Invariants.

Lemma append_cons c a b : (String c a +:+ b)%string = String c (a +:+ b).
Proof. reflexivity. Qed.

Lemma append_nil_r a : (a +:+ "")%string = a.
Proof. induction a as [|c a IH]; [done|]. by rewrite append_cons, IH. Qed.

Lemma append_assoc a b c : ((a +:+ b) +:+ c)%string = (a +:+ (b +:+ c))%string.
Proof. induction a as [|x a IH]; [done|]. by rewrite !append_cons, IH. Qed.

Lemma length_append a b :
  String.length (a +:+ b) = (String.length a + String.length b)%nat.
Proof. induction a as [|x a IH]; [done|]. rewrite append_cons. cbn. by rewrite IH. Qed.

Lemma rev_app_append a b : String.rev_app a b = (String.rev a +:+ b)%string.
Proof.
  unfold String.rev. revert b.
  induction a as [|x a IH]; intros b; [done|]. cbn.
  rewrite (IH (String x b)), (IH (String x "")).
  by rewrite append_assoc.
Qed.

Lemma rev_cons c r : String.rev (String c r) = (String.rev r +:+ String c "")%string.
Proof. unfold String.rev at 1. cbn. apply rev_app_append. Qed.

Lemma rev_snoc y c : String.rev (y +:+ String c "") = String c (String.rev y).
Proof.
  induction y as [|x y IH]; [done|].
  by rewrite append_cons, !rev_cons, IH.
Qed.

Lemma rev_involutive s : String.rev (String.rev s) = s.
Proof.
  induction s as [|c r IH]; [done|]. by rewrite rev_cons, rev_snoc, IH.
Qed.

Lemma length_rev s : String.length (String.rev s) = String.length s.
Proof.
  induction s as [|c r IH]; [done|].
  rewrite rev_cons, length_append, IH. cbn. lia.
Qed.

Lemma lstrip_length s : (String.length (lstrip s) ≤ String.length s)%nat.
Proof.
  induction s as [|c r IH]; [done|]. cbn. destruct (is_space c); cbn; lia.
Qed.

Lemma lstrip_first s :
  match first_char (lstrip s) with
  | Some c => is_space c = false
  | None => lstrip s = ""%string
  end.
Proof.
  induction s as [|c r IH]; [done|]. cbn.
  destruct (is_space c) eqn:E; [done|]. by cbn.
Qed.

Lemma lstrip_fixed c r : is_space c = false → lstrip (String c r) = String c r.
Proof. intros H. cbn. by rewrite H. Qed.

Lemma lstrip_idem s : lstrip (lstrip s) = lstrip s.
Proof.
  pose proof (lstrip_first s) as H.
  destruct (lstrip s) as [|c r]; [done|]. by apply lstrip_fixed.
Qed.

Lemma lstrip_snoc x c :
  is_space c = false → ∃ y, lstrip (x +:+ String c "") = (y +:+ String c "")%string.
Proof.
  intros Hc. induction x as [|a x IH].
  - exists ""%string. by apply lstrip_fixed.
  - rewrite append_cons. cbn. destruct (is_space a); [done|].
    by exists (String a x).
Qed.

Lemma rstrip_length s : (String.length (rstrip s) ≤ String.length s)%nat.
Proof.
  unfold rstrip. rewrite length_rev.
  pose proof (lstrip_length (String.rev s)). by rewrite length_rev in *.
Qed.

Lemma rstrip_idem s : rstrip (rstrip s) = rstrip s.
Proof. unfold rstrip. by rewrite rev_involutive, lstrip_idem. Qed.

(** Stripping on the right keeps a first character that is not a space. *)
Lemma rstrip_keeps_first c r :
  is_space c = false → ∃ r', rstrip (String c r) = String c r'.
Proof.
  intros Hc. unfold rstrip. rewrite rev_cons.
  destruct (lstrip_snoc (String.rev r) c Hc) as [y ->].
  exists (String.rev y). apply rev_snoc.
Qed.

Lemma last_char_snoc y c : last_char (y +:+ String c "") = Some c.
Proof.
  induction y as [|x y IH]; [done|]. rewrite append_cons.
  cbn. rewrite IH. by destruct (y +:+ String c "")%string.
Qed.

Lemma rstrip_last s :
  match last_char (rstrip s) with
  | Some c => is_space c = false
  | None => rstrip s = ""%string
  end.
Proof.
  unfold rstrip. pose proof (lstrip_first (String.rev s)) as H.
  destruct (lstrip (String.rev s)) as [|c r]; [done|].
  rewrite rev_cons, last_char_snoc. exact H.
Qed.

Lemma strip_length s : len (strip s) ≤ len s.
Proof.
  unfold len, strip.
  pose proof (rstrip_length (lstrip s)). pose proof (lstrip_length s). lia.
Qed.

Lemma strip_idem s : strip (strip s) = strip s.
Proof.
  unfold strip. pose proof (lstrip_first s) as H.
  destruct (lstrip s) as [|c r] eqn:E; [done|]. cbn in H.
  destruct (rstrip_keeps_first c r H) as [r' Hr]. rewrite Hr.
  rewrite (lstrip_fixed c r' H), <- Hr. apply rstrip_idem.
Qed.

(** A stripped string has no space at its two ends. *)
Lemma strip_ends s :
  (∀ c, first_char (strip s) = Some c → is_space c = false)
  ∧ (∀ c, last_char (strip s) = Some c → is_space c = false).
Proof.
  unfold strip. split; intros c Hc.
  - pose proof (lstrip_first s) as H.
    destruct (lstrip s) as [|a r]; [done|]. cbn in H.
    destruct (rstrip_keeps_first a r H) as [r' Hr]. rewrite Hr in Hc.
    cbn in Hc. by injection Hc as <-.
  - pose proof (rstrip_last (lstrip s)) as H. by rewrite Hc in H.
Qed.

End PyStrFacts.

(** ** More on the generation gateway *)

Module GatewayMore.
Import RateLimit Gateway RateLimitFacts GatewayFacts RateLimitMore.

Lemma handle_raised_failure e :
  ∃ error error_type,
    handle_raised e = Failure error error_type
    ∧ error_type ≠ "rate_limit"%string.
Proof. destruct e; do 2 eexists; (split; [reflexivity|discriminate]). Qed.

(** What a success of the [try] block says about the provider's answer. *)
Lemma outcome_success request answer generated meta :
  outcome_of request answer = Success generated meta →
  ∃ r t, answer = inr (Some r) ∧ text r = inr (Some t)
         ∧ generated = PyStr.strip t ∧ 10 ≤ PyStr.len generated
         ∧ meta = {| meta_mood := mood request;
                     meta_length := Gateway.length request;
                     meta_language := language request;
                     character_count := PyStr.len generated |}.
Proof.
  unfold outcome_of, handle_response.
  destruct answer as [e|[r|]]; [by destruct e| |done].
  destruct (text r) as [e|[t|]] eqn:Et; [by destruct e| |done].
  destruct (String.eqb t ""); [done|].
  destruct (PyStr.len (PyStr.strip t) <? 10) eqn:El; [done|].
  intros [= <- <-]. exists r, t. apply Z.ltb_ge in El. by repeat split.
Qed.

Lemma outcome_not_rate_limited request answer :
  outcome_of request answer ≠ rate_limited.
Proof.
  unfold outcome_of, handle_response, rate_limited.
  destruct answer as [e|[r|]]; [by destruct e| |done].
  destruct (text r) as [e|[t|]]; [by destruct e| |done].
  destruct (String.eqb t ""); [done|].
  by destruct (PyStr.len (PyStr.strip t) <? 10).
Qed.

(** X8: a success always carries a checked post: the limiter admitted the
    run, the prompt went to the provider once, the post is the provider's
    text stripped (so stripping it again changes nothing), it has at least
    10 characters, and the metadata give the request's mood, length and
    language and the number of characters of the post. *)
Theorem success_carries_checked_post :
  ∀ model world now request user_id generated meta,
    (generate_linkedin_post model world now request user_id).1
      = Success generated meta →
    (check world now user_id).1 = true
    ∧ provider_calls (generate_linkedin_post model world now request user_id).2
      = provider_calls world ++ [base_prompt request]
    ∧ PyStr.strip generated = generated
    ∧ 10 ≤ PyStr.len generated
    ∧ character_count meta = PyStr.len generated
    ∧ meta_mood meta = mood request
    ∧ meta_length meta = Gateway.length request
    ∧ meta_language meta = language request.
Proof.
  intros model world now request u generated meta.
  destruct (check world now u).1 eqn:Hc.
  - rewrite (generate_allowed _ _ _ _ _ Hc). cbn [fst snd provider_calls].
    intros (r & t & _ & _ & -> & Hlen & ->)%outcome_success.
    repeat split; try done. apply PyStrFacts.strip_idem.
  - by rewrite (generate_rejected _ _ _ _ _ Hc).
Qed.

Lemma success_carries_checked_post_witness :
  (generate_linkedin_post (answering "  Work hard, rest well.  ")
     fresh 20 a_request 1).1
  = Success "Work hard, rest well."
      {| meta_mood := casual; meta_length := short;
         meta_language := english; character_count := 21 |}
  ∧ PyStr.strip "Work hard, rest well." = "Work hard, rest well."%string
  ∧ 10 ≤ PyStr.len "Work hard, rest well.".
Proof.
  assert (H : (generate_linkedin_post (answering "  Work hard, rest well.  ")
                 fresh 20 a_request 1).1
              = Success "Work hard, rest well."
                  {| meta_mood := casual; meta_length := short;
                     meta_language := english; character_count := 21 |})
    by (vm_compute; reflexivity).
  split; [exact H|].
  destruct (success_carries_checked_post _ _ _ _ _ _ _ H)
    as (_ & _ & H3 & H4 & _).
  split; [exact H3|exact H4].
Defined.

(** X9: the [rate_limit] failure is returned exactly when the limiter
    rejects, and the provider is called once in a run exactly when the
    limiter admits: the list of prompts sent grows by the prompt of the
    request, or not at all. *)
Theorem provider_called_iff_admitted :
  ∀ model world now request user_id,
    let after := generate_linkedin_post model world now request user_id in
    (after.1 = rate_limited ↔ (check world now user_id).1 = false)
    ∧ provider_calls after.2
      = provider_calls world
        ++ (if (check world now user_id).1 then [base_prompt request] else []).
Proof.
  intros model world now request u after. unfold after.
  destruct (check world now u).1 eqn:Hc.
  - rewrite (generate_allowed _ _ _ _ _ Hc). cbn [fst snd provider_calls].
    split; [|done]. split; [|done].
    intros H. by apply outcome_not_rate_limited in H.
  - rewrite (generate_rejected _ _ _ _ _ Hc). cbn [fst snd provider_calls].
    by rewrite app_nil_r.
Qed.

(** X10: a run shows in the statistics read at the same clock reading: an
    admitted run, whatever the provider does, raises the user's
    [requests_in_last_hour] by one; a rejected run leaves it as it was. *)
Theorem generation_counts_in_stats :
  ∀ model world now request user_id,
    let after := generate_linkedin_post model world now request user_id in
    requests_in_last_hour
      (get_generation_stats (rate_limiter after.2) now user_id).1
    = requests_in_last_hour
        (get_generation_stats (rate_limiter world) now user_id).1
      + (if (check world now user_id).1 then 1 else 0).
Proof.
  intros model world now request u after. unfold after.
  unfold get_generation_stats. cbn [fst requests_in_last_hour].
  fold (window_of (rate_limiter world) u).
  destruct (check world now u).1 eqn:Hc.
  - rewrite (generate_allowed _ _ _ _ _ Hc). cbn [snd rate_limiter].
    fold (window_of (check world now u).2 u).
    unfold check in *. rewrite (is_allowed_accept _ _ _ _ _ Hc).
    unfold default_window_minutes.
    rewrite recent_all.
    + rewrite length_app. cbn. lia.
    + apply Forall_app. split; [apply recent_Forall|].
      constructor; [lia|constructor].
  - rewrite (generate_rejected _ _ _ _ _ Hc). cbn [snd rate_limiter].
    fold (window_of (check world now u).2 u).
    unfold check in *. rewrite (is_allowed_reject _ _ _ _ _ Hc).
    unfold default_window_minutes. rewrite recent_idem. lia.
Qed.

(** X11: [validate_topic] refuses exactly the topics of more than 200
    characters, measured before stripping; an accepted topic is the input
    stripped, has at most 200 characters, has no space at its two ends, and
    is accepted unchanged when validated again. *)
Theorem topic_validation :
  ∀ v,
    (200 < PyStr.len v →
     validate_topic v = inl "Topic must be less than 200 characters"%string)
    ∧ (PyStr.len v ≤ 200 →
       validate_topic v = inr (PyStr.strip v)
       ∧ PyStr.len (PyStr.strip v) ≤ 200
       ∧ validate_topic (PyStr.strip v) = inr (PyStr.strip v)
       ∧ (∀ c, Invariants.first_char (PyStr.strip v) = Some c →
               PyStr.is_space c = false)
       ∧ (∀ c, Invariants.last_char (PyStr.strip v) = Some c →
               PyStr.is_space c = false)).
Proof.
  intros v. unfold validate_topic. split.
  - intros H. by rewrite (proj2 (Z.ltb_lt _ _) H).
  - intros H. pose proof (PyStrFacts.strip_length v) as Hs.
    rewrite (proj2 (Z.ltb_ge _ _) H).
    rewrite (proj2 (Z.ltb_ge 200 (PyStr.len (PyStr.strip v))) ltac:(lia)).
    rewrite PyStrFacts.strip_idem.
    split; [done|]. split; [lia|]. split; [done|].
    apply PyStrFacts.strip_ends.
Qed.

Lemma topic_validation_witness :
  PyStr.len "  remote work  " ≤ 200
  ∧ validate_topic "  remote work  " = inr "remote work"%string.
Proof.
  assert (H : PyStr.len "  remote work  " ≤ 200) by (vm_compute; discriminate).
  split; [exact H|].
  exact (proj1 (proj2 (topic_validation "  remote work  ") H)).
Defined.

End GatewayMore.

(** ** More on signup, login and tokens *)

Module AuthMore.
Import Auth AuthFacts Invariants.

(** *** Lower-casing *)

Lemma lower_char_idem c : PyStr.lower_char (PyStr.lower_char c) = PyStr.lower_char c.
Proof. by destruct c as [[] [] [] [] [] [] [] []]. Qed.

Lemma lower_char_not_upper c : PyStr.is_upper (PyStr.lower_char c) = false.
Proof. by destruct c as [[] [] [] [] [] [] [] []]. Qed.

Lemma lower_char_word c : word_char (PyStr.lower_char c) = word_char c.
Proof. by destruct c as [[] [] [] [] [] [] [] []]. Qed.

Lemma lower_char_line_feed c :
  (PyStr.code (PyStr.lower_char c) =? 10) = (PyStr.code c =? 10).
Proof. by destruct c as [[] [] [] [] [] [] [] []]. Qed.

Lemma lower_length s : PyStr.len (PyStr.lower s) = PyStr.len s.
Proof.
  unfold PyStr.len. f_equal.
  induction s as [|c r IH]; [done|]. cbn. by rewrite IH.
Qed.

Lemma lower_idem s : PyStr.lower (PyStr.lower s) = PyStr.lower s.
Proof.
  induction s as [|c r IH]; [done|]. cbn. by rewrite lower_char_idem, IH.
Qed.

Lemma lower_empty s : String.eqb (PyStr.lower s) "" = String.eqb s "".
Proof. by destruct s. Qed.

Lemma lower_no_upper s : PyStr.search_class PyStr.is_upper (PyStr.lower s) = false.
Proof.
  induction s as [|c r IH]; [done|]. cbn. by rewrite lower_char_not_upper, IH.
Qed.

Lemma lower_rest_matches s : rest_matches (PyStr.lower s) = rest_matches s.
Proof.
  induction s as [|c r IH]; [done|]. cbn.
  by rewrite lower_char_word, lower_char_line_feed, lower_empty, IH.
Qed.

Lemma lower_pattern s :
  username_pattern_matches (PyStr.lower s) = username_pattern_matches s.
Proof.
  destruct s as [|c r]; [done|]. cbn.
  by rewrite lower_char_word, lower_rest_matches.
Qed.

(** *** Lookups in a table without duplicates *)

Lemma fetchone_member name db row :
  fetchone_by_username name db = Some row →
  row ∈ rows db ∧ col_username row = name.
Proof.
  rewrite fetchone_rows_of. unfold rows_of. intros H.
  assert (Hin : row ∈ filter (λ r, col_username r = name) (rows db)).
  { destruct (filter _ _); [done|]. cbn in H. injection H as ->. by left. }
  apply list_elem_of_filter in Hin as [? ?]. done.
Qed.

Lemma fetchone_unique name db row :
  NoDup (col_username <$> rows db) →
  row ∈ rows db → col_username row = name →
  fetchone_by_username name db = Some row.
Proof.
  rewrite fetchone_rows_of. unfold rows_of.
  induction (rows db) as [|r l IH]; intros Hnd Hin Hname.
  - by apply elem_of_nil in Hin.
  - rewrite fmap_cons in Hnd. apply NoDup_cons in Hnd as [Hfresh Hnd].
    apply elem_of_cons in Hin as [->|Hin].
    + by rewrite filter_cons_True.
    + rewrite filter_cons_False; [by apply IH|].
      intros Hr. apply Hfresh. rewrite Hr, <- Hname.
      by apply list_elem_of_fmap_2.
Qed.

Lemma fetchone_absent name db :
  fetchone_by_username name db = None → name ∉ (col_username <$> rows db).
Proof.
  rewrite fetchone_rows_of. unfold rows_of. intros H Hin.
  apply list_elem_of_fmap in Hin as (row & -> & Hrow).
  assert (Hf : row ∈ filter (λ r, col_username r = col_username row) (rows db))
    by by apply list_elem_of_filter.
  destruct (filter _ _); [by apply elem_of_nil in Hf|done].
Qed.

Section Handlers.

Variable pwd_hash : string → string.
Variable pwd_verify : string → string → option bool.
Variable sign : string → string → gmap string JVal → string.
Variable settings : Settings.

Local Abbreviation login := (Auth.login pwd_verify sign settings).
Local Abbreviation signup := (Auth.signup pwd_hash).
Local Abbreviation create_user := (Auth.create_user pwd_hash).
Local Abbreviation validate := (get_current_user sign settings).
Local Abbreviation issue := (create_access_token sign settings).

(** What one signup request does to the table, outcome by outcome. *)
Lemma create_user_cases name pw db now :
  (∃ errors, create_user name pw db now = (ValidationError errors, db))
  ∨ (∃ e db', create_user name pw db now = (Raised e, db')
              ∧ rows db' = rows db ∧ next_id db' = next_id db
              ∧ available db' = available db)
  ∨ (∃ db', create_user name pw db now
            = (Created {| resp_username := PyStr.lower name;
                          message := "User created successfully" |}, db')
            ∧ rows db'
              = rows db ++ [ {| col_id := next_id db;
                                col_username := PyStr.lower name;
                                col_password := pwd_hash pw;
                                col_created_at := now |} ]
            ∧ next_id db' = next_id db + 1
            ∧ available db' = available db
            ∧ available db = true
            ∧ PyStr.lower name ∉ (col_username <$> rows db)).
Proof.
  unfold Auth.create_user.
  destruct (User_new name pw) as [errors|user] eqn:Hv; [left; by eexists|].
  destruct (User_new_fields _ _ _ Hv) as [Hu Hp]. right.
  unfold Auth.signup. destruct (available db) eqn:Hav; cbn [negb].
  - rewrite fetchone_send.
    destruct (fetchone_by_username (username user) db) as [row|] eqn:Hf.
    + left. do 2 eexists. split; [reflexivity|]. cbn. by repeat split.
    + right. eexists. rewrite Hu, Hp. split; [reflexivity|].
      cbn. repeat split; try done.
      rewrite <- Hu. by apply fetchone_absent.
  - left. do 2 eexists. split; [reflexivity|]. cbn. by repeat split.
Qed.

Lemma table_ok_step name pw db now :
  table_ok db → table_ok (create_user name pw db now).2.
Proof.
  intros (Hn & Hi & Hb).
  destruct (create_user_cases name pw db now)
    as [[errors ->]|[(e & db' & -> & Hr & Hnx & _)
                    |(db' & -> & Hr & Hnx & _ & _ & Hfresh)]];
    cbn [snd]; unfold table_ok.
  - done.
  - by rewrite Hr, Hnx.
  - rewrite Hr, Hnx, !fmap_app. cbn [fmap list_fmap col_username col_id].
    assert (Hid : next_id db ∉ (col_id <$> rows db)).
    { intros (row & Hrow & Hin)%list_elem_of_fmap.
      pose proof (proj1 (Forall_forall _ _) Hb row Hin) as Hlt.
      cbn in Hlt. lia. }
    split; [|split].
    + apply NoDup_app. split; [done|]. split; [|apply NoDup_singleton].
      intros x Hx ->%list_elem_of_singleton. done.
    + apply NoDup_app. split; [done|]. split; [|apply NoDup_singleton].
      intros x Hx ->%list_elem_of_singleton. done.
    + apply Forall_app. split.
      * eapply Forall_impl; [exact Hb|]. cbn. intros. lia.
      * constructor; [cbn; lia|constructor].
Qed.

Lemma table_ok_signups reqs : ∀ db,
  table_ok db → table_ok (signups pwd_hash reqs db).
Proof.
  induction reqs as [|r rest IH]; intros db Hok; [done|].
  cbn. apply IH. by apply table_ok_step.
Qed.

(** X12: a signup whose username is shorter than 3 or longer than 50
    characters, or has a character outside [[a-zA-Z0-9_]] that is not a
    single line feed closing a word of the class, fails with a validation
    error, and the connection is left as it was: no statement is sent. *)
Theorem bad_username_stops_at_model :
  ∀ name pw db now,
    PyStr.len name < 3 ∨ 50 < PyStr.len name
    ∨ (all_word_chars name = false
       ∧ ∀ w, name = (w +:+ PyStr.LF)%string →
              w = ""%string ∨ all_word_chars w = false) →
    ∃ errors, create_user name pw db now = (ValidationError errors, db).
Proof.
  intros name pw db now Hbad.
  destruct (User_new name pw) as [errors|user] eqn:Hv.
  { exists errors. by apply create_user_invalid. }
  exfalso. apply User_new_ok in Hv as [Hu _].
  apply validate_username_ok in Hu as (_ & Hlen & Hpat).
  apply username_pattern_spec in Hpat as [_ Hpat].
  destruct Hbad as [?|[?|[Hnw Hlf]]]; [lia|lia|].
  destruct Hpat as [Hall|(w & Hw & Hne & Hall)]; [congruence|].
  destruct (Hlf w Hw); congruence.
Qed.

(** X13: a signup whose password is shorter than 8 or longer than 128
    characters, or has no upper-case letter, no lower-case letter or no
    digit, fails with a validation error, and the connection is left as it
    was: no statement is sent. *)
Theorem weak_password_stops_at_model :
  ∀ name pw db now,
    PyStr.len pw < 8 ∨ 128 < PyStr.len pw
    ∨ PyStr.search_class PyStr.is_upper pw = false
    ∨ PyStr.search_class PyStr.is_lower pw = false
    ∨ PyStr.search_class PyStr.is_digit pw = false →
    ∃ errors, create_user name pw db now = (ValidationError errors, db).
Proof.
  intros name pw db now Hbad.
  destruct (User_new name pw) as [errors|user] eqn:Hv.
  { exists errors. by apply create_user_invalid. }
  exfalso. apply User_new_ok in Hv as [_ Hp].
  apply validate_password_ok in Hp as (_ & Hlen & Hup & Hlo & Hdi).
  destruct Hbad as [?|[?|[?|[?|?]]]]; [lia|lia|congruence..].
Qed.

(** X14: a username the validator accepts is stored in a normal form: it
    has the length of the input, is between 3 and 50 characters, has no
    upper-case letter, and the validator accepts it again unchanged. *)
Theorem accepted_username_normal_form :
  ∀ v u,
    validate_username v = inr u →
    PyStr.len u = PyStr.len v
    ∧ 3 ≤ PyStr.len u ≤ 50
    ∧ PyStr.search_class PyStr.is_upper u = false
    ∧ validate_username u = inr u.
Proof.
  intros v u (-> & Hlen & Hpat)%validate_username_ok.
  rewrite lower_length. split; [done|]. split; [done|].
  split; [apply lower_no_upper|].
  apply validate_username_ok.
  by rewrite lower_idem, lower_length, lower_pattern.
Qed.

(** X15: signups keep the table well formed: if no two rows share a
    username or an id and every id is below the next value of the sequence,
    this is so after any run of signup requests, whatever their outcomes. *)
Theorem signups_keep_usernames_unique :
  ∀ reqs db, table_ok db → table_ok (signups pwd_hash reqs db).
Proof. intros reqs db. apply table_ok_signups. Qed.

(** X16: a signup request changes the table only when it creates the
    user: it then appends one row, with the next id, the lower-cased
    username, the hash of the password and the time, and advances the
    sequence by one; with any other outcome the rows and the sequence are
    as before. *)
Theorem signup_changes_table_only_on_success :
  ∀ name pw db now,
    let out := create_user name pw db now in
    match out.1 with
    | Created r =>
        r = {| resp_username := PyStr.lower name;
               message := "User created successfully" |}
        ∧ rows out.2
          = rows db ++ [ {| col_id := next_id db;
                            col_username := PyStr.lower name;
                            col_password := pwd_hash pw;
                            col_created_at := now |} ]
        ∧ next_id out.2 = next_id db + 1
    | _ => rows out.2 = rows db ∧ next_id out.2 = next_id db
    end.
Proof.
  intros name pw db now out. unfold out.
  destruct (create_user_cases name pw db now)
    as [[errors ->]|[(e & db' & -> & Hr & Hnx & _)
                    |(db' & -> & Hr & Hnx & _)]]; by cbn.
Qed.



Lemma immature_is_refused payload issued now :
  get payload "iat" = JInt issued → now < issued →
  validate (jwt_encode sign payload (jwt_secret_key settings)
              (jwt_algorithm settings)) now
  = inl credentials_exception.
Proof.
  intros Hi Hlt. unfold get_current_user, jwt_decode, jwt_encode.
  rewrite !String.eqb_refl. cbn [negb].
  unfold validate_claims, validate_iat. rewrite Hi. cbn.
  by rewrite (proj2 (Z.ltb_lt _ _) Hlt).
Qed.



End Handlers.

Lemma bad_username_stops_at_model_witness :
  ∃ errors,
    Auth.create_user demo_hash "bob smith" "Passw0rd" alice_db 5
    = (ValidationError errors, alice_db).
Proof.
  apply bad_username_stops_at_model. right. right.
  split; [reflexivity|].
  intros w Hw. exfalso. revert Hw. unfold PyStr.LF.
  repeat (destruct w as [|? w]; [discriminate|];
          cbn [String.append]; intros [= ? Hw]; revert Hw).
Defined.

Lemma weak_password_stops_at_model_witness :
  ∃ errors,
    Auth.create_user demo_hash "carol" "password1" alice_db 5
    = (ValidationError errors, alice_db).
Proof.
  apply weak_password_stops_at_model. right. right. left. reflexivity.
Defined.

Lemma accepted_username_normal_form_witness :
  validate_username "Alice_01" = inr "alice_01"%string
  ∧ validate_username "alice_01" = inr "alice_01"%string.
Proof.
  assert (H : validate_username "Alice_01" = inr "alice_01"%string)
    by reflexivity.
  split; [exact H|].
  exact (proj2 (proj2 (proj2 (accepted_username_normal_form _ _ H)))).
Defined.





Lemma signups_keep_usernames_unique_witness :
  table_ok empty_db
  ∧ table_ok
      (signups demo_hash
         [ {| su_name := "Alice_01"; su_password := "Passw0rd"; su_time := 1 |};
           {| su_name := "ALICE_01"; su_password := "Passw0rd"; su_time := 2 |};
           {| su_name := "bob"; su_password := "Secret99x"; su_time := 3 |} ]
         empty_db).
Proof.
  assert (H : table_ok empty_db).
  { unfold table_ok. cbn. repeat split; constructor. }
  split; [exact H|].
  apply (signups_keep_usernames_unique demo_hash _ _ H).
Defined.

End AuthMore.

(** ** The settings check and the secret generator *)

Module ConfigFacts.
Import Config GenerateSecret.

Lemma get_below n s :
  (n < String.length s)%nat → ∃ c, String.get n s = Some c.
Proof.
  revert n. induction s as [|c r IH]; intros n Hn; cbn in *; [lia|].
  destruct n as [|n]; [by eexists|]. apply IH. lia.
Qed.

Lemma get_occurs n s c : String.get n s = Some c → occurs c s = true.
Proof.
  revert n. induction s as [|c' r IH]; intros n; cbn; [done|].
  destruct n as [|n].
  - intros [= ->]. by rewrite Ascii.eqb_refl.
  - intros H. rewrite (IH _ H). apply orb_true_r.
Qed.

Lemma choice_occurs draw alphabet :
  alphabet ≠ ""%string → occurs (choice draw alphabet) alphabet = true.
Proof.
  intros Hne. unfold choice.
  destruct (get_below (draw mod String.length alphabet) alphabet) as [c Hc].
  { apply Nat.mod_upper_bound. by destruct alphabet. }
  rewrite Hc. cbn. by apply (get_occurs _ _ _ Hc).
Qed.

Lemma choices_length draws alphabet first n :
  String.length (choices draws alphabet first n) = n.
Proof. revert first. induction n as [|n IH]; intros first; cbn; [done|]. by rewrite IH. Qed.

Lemma choices_occur draws alphabet first n :
  alphabet ≠ ""%string →
  all_chars (λ c, occurs c alphabet) (choices draws alphabet first n) = true.
Proof.
  intros Hne. revert first.
  induction n as [|n IH]; intros first; cbn; [done|].
  by rewrite choice_occurs, IH.
Qed.

Lemma all_chars_impl (P Q : ascii → bool) s :
  (∀ c, P c = true → Q c = true) →
  all_chars P s = true → all_chars Q s = true.
Proof.
  intros HPQ. induction s as [|c r IH]; cbn; [done|].
  intros [Hc Hr]%andb_true_iff. by rewrite (HPQ _ Hc), IH.
Qed.

Lemma alphanumeric c :
  occurs c (ascii_letters +:+ digits) = true →
  PyStr.is_lower c || PyStr.is_upper c || PyStr.is_digit c = true.
Proof. by destruct c as [[] [] [] [] [] [] [] []]. Qed.

Lemma secret_length draws n :
  PyStr.len (generate_secure_jwt_secret draws n) = Z.max 0 n.
Proof.
  unfold PyStr.len, generate_secure_jwt_secret. rewrite choices_length. lia.
Qed.

Lemma validate_passes self key :
  falsy (db_password self) = false →
  jwt_secret_key self = Some key →
  falsy (google_api_key self) = false →
  32 ≤ PyStr.len key →
  validate_required_settings self = inr tt.
Proof.
  intros Hd Hk Hg Hlen. unfold validate_required_settings.
  assert (Hj : falsy (jwt_secret_key self) = false).
  { rewrite Hk. cbn. apply String.eqb_neq. intros ->.
    change (PyStr.len "") with 0 in Hlen. lia. }
  rewrite !filter_cons_False, filter_nil by (cbn; congruence).
  cbn. rewrite Hk. cbn. by rewrite (proj2 (Z.ltb_ge _ _) Hlen).
Qed.

(** X21: [validate_required_settings] passes exactly when the database
    password, the signing key and the provider key are all set and not
    empty and the signing key has 32 characters or more. When all are set
    and the key is shorter it raises the key-length message; when all three
    are unset it names the three, in the order of the source, and says
    nothing of the key length. *)
Theorem settings_check :
  ∀ self,
    (validate_required_settings self = inr tt
     ↔ falsy (db_password self) = false
       ∧ falsy (jwt_secret_key self) = false
       ∧ falsy (google_api_key self) = false
       ∧ 32 ≤ PyStr.len (default ""%string (jwt_secret_key self)))
    ∧ (falsy (db_password self) = false →
       falsy (jwt_secret_key self) = false →
       falsy (google_api_key self) = false →
       PyStr.len (default ""%string (jwt_secret_key self)) < 32 →
       validate_required_settings self
       = inl "JWT_SECRET_KEY must be at least 32 characters long"%string)
    ∧ (falsy (db_password self) = true →
       falsy (jwt_secret_key self) = true →
       falsy (google_api_key self) = true →
       validate_required_settings self
       = inl ("Missing required environment variables: "
              +:+ "DB_PASSWORD, JWT_SECRET_KEY, GOOGLE_API_KEY")%string).
Proof.
  intros self. unfold validate_required_settings.
  destruct (falsy (db_password self)) eqn:Hd,
           (falsy (jwt_secret_key self)) eqn:Hj,
           (falsy (google_api_key self)) eqn:Hg;
    rewrite ?filter_cons_True, ?filter_cons_False, ?filter_nil
      by (cbn; congruence);
    rewrite ?filter_cons_True, ?filter_cons_False, ?filter_nil
      by (cbn; congruence);
    rewrite ?filter_cons_True, ?filter_cons_False, ?filter_nil
      by (cbn; congruence);
    cbn [fmap list_fmap fst];
    try (split; [split; [done|by intros (? & ? & ? & ?)]|by split]).
  destruct (PyStr.len (default ""%string (jwt_secret_key self)) <? 32) eqn:El.
  - apply Z.ltb_lt in El. split; [|by split].
    split; [done|]. intros (_ & _ & _ & ?). lia.
  - apply Z.ltb_ge in El. split; [|split; [|done]].
    + split; [by repeat split|done].
    + intros _ _ _ ?. lia.
Qed.

Lemma settings_check_witness :
  validate_required_settings
    {| db_user := "postgres"; db_password := Some "pg"%string;
       db_host := "localhost"; db_port := "5432"; db_name := "postgenerator";
       jwt_secret_key := Some "too short"%string; jwt_algorithm := "HS256";
       access_token_expire_minutes := 30;
       google_api_key := Some "key"%string;
       allowed_origins := ["http://localhost:3000"%string] |}
  = inl "JWT_SECRET_KEY must be at least 32 characters long"%string.
Proof.
  apply (proj1 (proj2 (settings_check _))); reflexivity.
Defined.

(** X22: the generated signing key has as many characters as asked for
    (none for a negative number), each one a letter, a digit or one of the
    eight signs of the alphabet; the generated database password has the
    asked length too and only letters and digits. *)
Theorem generated_secrets_shape :
  ∀ draws n,
    PyStr.len (generate_secure_jwt_secret draws n) = Z.max 0 n
    ∧ all_chars (λ c, occurs c (ascii_letters +:+ digits +:+ "!@#$%^&*"))
        (generate_secure_jwt_secret draws n) = true
    ∧ PyStr.len (generate_secure_password draws n) = Z.max 0 n
    ∧ all_chars (λ c, PyStr.is_lower c || PyStr.is_upper c || PyStr.is_digit c)
        (generate_secure_password draws n) = true.
Proof.
  intros draws n. split; [apply secret_length|]. split; [|split].
  - by apply choices_occur.
  - unfold PyStr.len, generate_secure_password. rewrite choices_length. lia.
  - apply (all_chars_impl (λ c, occurs c (ascii_letters +:+ digits)));
      [apply alphanumeric|]. by apply choices_occur.
Qed.

(** X23: a signing key generated with 32 characters or more, so with the
    default 64, passes the settings check, whatever the random draws, when
    the database password and the provider key are set. *)
Theorem generated_key_passes_settings_check :
  ∀ draws n self,
    32 ≤ n →
    jwt_secret_key self = Some (generate_secure_jwt_secret draws n) →
    falsy (db_password self) = false →
    falsy (google_api_key self) = false →
    validate_required_settings self = inr tt.
Proof.
  intros draws n self Hn Hk Hd Hg.
  apply (validate_passes self _ Hd Hk Hg). rewrite secret_length. lia.
Qed.

Lemma generated_key_passes_settings_check_witness :
  validate_required_settings
    {| db_user := "postgres"; db_password := Some "pg"%string;
       db_host := "localhost"; db_port := "5432"; db_name := "postgenerator";
       jwt_secret_key :=
         Some (generate_secure_jwt_secret (λ i, 7 * i + 3)%nat
                 default_jwt_secret_length);
       jwt_algorithm := "HS256";
       access_token_expire_minutes := 30;
       google_api_key := Some "key"%string;
       allowed_origins := ["http://localhost:3000"%string] |}
  = inr tt.
Proof.
  apply (generated_key_passes_settings_check (λ i, 7 * i + 3)%nat
           default_jwt_secret_length); try reflexivity.
  unfold default_jwt_secret_length. lia.
Defined.

End ConfigFacts.

(** ** The protected endpoints *)

Module MainFacts.
Import RateLimit Gateway Auth Main RateLimitFacts GatewayFacts.

Lemma generate_post_rejected model world now request username user_id :
  (check world now user_id).1 = false →
  generate_post model world now request username user_id
  = (inl {| status_code := HTTP_429_TOO_MANY_REQUESTS;
            detail := "Rate limit exceeded. Please try again later.";
            headers := [] |},
     {| rate_limiter := (check world now user_id).2;
        provider_calls := provider_calls world |}).
Proof.
  intros Hc. unfold generate_post.
  by rewrite (generate_rejected _ _ _ _ _ Hc).
Qed.

Lemma generate_post_allowed model world now request username user_id :
  (check world now user_id).1 = true →
  (generate_post model world now request username user_id).1
  = match outcome_of request (model (base_prompt request)) with
    | Success generated meta =>
        inr {| success := true; post := generated; metadata := meta;
               user := username |}
    | Failure error error_type =>
        inl {| status_code :=
                 if String.eqb error_type "quota_exceeded"
                 then HTTP_503_SERVICE_UNAVAILABLE
                 else HTTP_500_INTERNAL_SERVER_ERROR;
               detail := error; headers := [] |}
    end.
Proof.
  intros Hc. unfold generate_post.
  rewrite (generate_allowed _ _ _ _ _ Hc).
  destruct (outcome_of request (model (base_prompt request)))
    as [generated meta|error error_type] eqn:Ho; [done|].
  cbn [fst]. destruct (String.eqb error_type "rate_limit") eqn:Erl; [|done].
  apply String.eqb_eq in Erl. subst error_type. exfalso.
  unfold outcome_of, handle_response in Ho.
  destruct (model (base_prompt request)) as [e|[r|]]; [by destruct e| |done].
  destruct (text r) as [e|[t|]]; [by destruct e| |done].
  destruct (String.eqb t ""); [done|].
  by destruct (PyStr.len (PyStr.strip t) <? 10).
Qed.

Lemma outcome_kinds request answer :
  (∃ generated meta, outcome_of request answer = Success generated meta)
  ∨ outcome_of request answer = quota_exceeded
  ∨ outcome_of request answer = empty_response
  ∨ outcome_of request answer = content_too_short
  ∨ outcome_of request answer = api_error
  ∨ outcome_of request answer = unexpected_error.
Proof.
  unfold outcome_of, handle_response.
  destruct answer as [[]|[r|]]; cbn; auto 10.
  destruct (text r) as [[]|[t|]]; cbn; auto 10.
  destruct (String.eqb t ""); auto 10.
  destruct (PyStr.len (PyStr.strip t) <? 10); eauto 10.
Qed.

(** X24: the status of a failed [POST /generate] follows the kind of the
    failure: 429 for [rate_limit], that is exactly when the limiter
    rejected; 503 for [quota_exceeded]; 500 for [empty_response],
    [content_too_short], [api_error] and [unexpected_error]; the detail is
    the error text of the result, and there is no other status. *)
Theorem generate_post_status_by_kind :
  ∀ model world now request username user_id e,
    (generate_post model world now request username user_id).1 = inl e →
    let result := (generate_linkedin_post model world now request user_id).1 in
    headers e = []
    ∧ result = Failure (detail e)
                 match result with
                 | Failure _ error_type => error_type
                 | Success _ _ => ""%string
                 end
    ∧ ((status_code e = HTTP_429_TOO_MANY_REQUESTS
        ∧ result = rate_limited ∧ (check world now user_id).1 = false)
       ∨ (status_code e = HTTP_503_SERVICE_UNAVAILABLE
          ∧ result = quota_exceeded ∧ (check world now user_id).1 = true)
       ∨ (status_code e = HTTP_500_INTERNAL_SERVER_ERROR
          ∧ (check world now user_id).1 = true
          ∧ (result = empty_response ∨ result = content_too_short
             ∨ result = api_error ∨ result = unexpected_error))).
Proof.
  intros model world now request username u e. unfold generate_post.
  destruct (check world now u).1 eqn:Hc.
  - rewrite (generate_allowed _ _ _ _ _ Hc). cbn [fst].
    destruct (outcome_kinds request (model (base_prompt request)))
      as [(g & m & ->)|[->|[->|[->|[->| ->]]]]]; cbn; try done;
      intros [= <-]; cbn; (split; [done|]); (split; [done|]); auto 10.
  - rewrite (generate_rejected _ _ _ _ _ Hc). cbn.
    intros [= <-]. cbn. split; [done|]. split; [done|]. by left.
Qed.

Lemma generate_post_status_by_kind_witness :
  (generate_post (raising GoogleAPIError) fresh 20 a_request (JStr "alice") 1).1
  = inl {| status_code := HTTP_500_INTERNAL_SERVER_ERROR;
           detail := "AI service temporarily unavailable. Please try again later.";
           headers := [] |}
  ∧ (generate_linkedin_post (raising GoogleAPIError) fresh 20 a_request 1).1
    = Failure "AI service temporarily unavailable. Please try again later."
        "api_error".
Proof.
  assert (H : (generate_post (raising GoogleAPIError) fresh 20 a_request
                 (JStr "alice") 1).1
              = inl {| status_code := HTTP_500_INTERNAL_SERVER_ERROR;
                       detail := "AI service temporarily unavailable. Please try again later.";
                       headers := [] |}) by reflexivity.
  split; [exact H|].
  exact (proj1 (proj2 (generate_post_status_by_kind _ _ _ _ _ _ _ H))).
Defined.

(** X25: the first generation of a user shows in the statistics: when
    nothing is stored for the user, a [POST /generate] at a time [now],
    whatever the provider does, followed by a [GET /stats] less than an hour
    later gives 1 request in the last hour, out of 10, and 9 remaining. *)
Theorem first_generation_then_stats :
  ∀ model world now later request username user_id,
    window_of (rate_limiter world) user_id = [] →
    later - 3600 < now →
    let world' :=
      (generate_post model world now request username user_id).2 in
    (get_user_stats world' later username user_id).1
    = {| stats_user := username;
         stats := {| requests_in_last_hour := 1;
                     max_requests_per_hour := 10;
                     remaining_requests := 9 |} |}.
Proof.
  intros model world now later request username u Hempty Hlt world'.
  assert (Hres : (check world now u).1 = true).
  { unfold check. rewrite is_allowed_result, Hempty. done. }
  assert (Hw : window_of (rate_limiter world') u = [now]).
  { unfold world', generate_post.
    rewrite (generate_allowed _ _ _ _ _ Hres).
    assert (Hl : window_of (check world now u).2 u = [now]).
    { unfold check in *. rewrite (is_allowed_accept _ _ _ _ _ Hres).
      by rewrite Hempty. }
    by destruct (outcome_of request (model (base_prompt request))). }
  unfold get_user_stats, get_generation_stats.
  fold (window_of (rate_limiter world') u). rewrite Hw.
  unfold recent. rewrite filter_cons_True by lia. done.
Qed.

Lemma first_generation_then_stats_witness :
  (get_user_stats
     (generate_post (raising ResourceExhausted) fresh 100 a_request
        (JStr "alice") 1).2
     3699 (JStr "alice") 1).1
  = {| stats_user := JStr "alice";
       stats := {| requests_in_last_hour := 1;
                   max_requests_per_hour := 10;
                   remaining_requests := 9 |} |}.
Proof.
  apply (first_generation_then_stats (raising ResourceExhausted) fresh 100 3699
           a_request (JStr "alice") 1); [reflexivity|lia].
Defined.

Section WithToken.

Variable sign : string → string → gmap string JVal → string.
Variable settings : Settings.

(** X26: a request with a token that is not accepted never reaches the
    limiter or the provider: it is answered with the 401 of
    [get_current_user] and the world is as before; this is so for every
    token whose signature is not the one of its payload. A request with an
    accepted token whose [user_id] is an integer is the handler run for that
    user. *)
Theorem unauthorized_request_uses_no_quota :
  (∀ model token world now request e,
     get_current_user sign settings token now = inl e →
     post_generate sign settings model token world now request
     = Some (inl e, world)
     ∧ status_code e = HTTP_401_UNAUTHORIZED)
  ∧ (∀ model alg payload sig world now request,
       sig ≠ sign alg (jwt_secret_key settings) payload →
       post_generate sign settings model (Signed alg payload sig) world now request
       = Some (inl credentials_exception, world))
  ∧ (∀ model token world now request username user_id,
       get_current_user sign settings token now
       = inr {| cu_username := username; cu_user_id := JInt user_id |} →
       post_generate sign settings model token world now request
       = Some (generate_post model world now request username user_id)).
Proof.
  split; [|split].
  - intros model token world now request e He. unfold post_generate.
    rewrite He. split; [done|].
    unfold get_current_user in He.
    destruct (jwt_decode sign token _ _ now) as [[]|payload];
      try (by injection He as <-).
    destruct (_ || _); [|done]. by injection He as <-.
  - intros model alg payload sig world now request Hne.
    unfold post_generate, get_current_user.
    by destruct (AuthFacts.decode_tampered sign settings alg payload sig now Hne)
      as [-> | ->].
  - intros model token world now request username u Hok.
    unfold post_generate. by rewrite Hok.
Qed.

End WithToken.

Lemma unauthorized_request_uses_no_quota_witness :
  post_generate demo_sign demo_settings (answering "A post about work and life.")
    (Signed "HS256" alice_claims "forged") fresh 100 a_request
  = Some (inl credentials_exception, fresh).
Proof.
  apply (proj1 (proj2 (unauthorized_request_uses_no_quota
                         demo_sign demo_settings))).
  vm_compute. discriminate.
Defined.

End MainFacts.
